(** * Lottery analyser: draw-history reconciliation and prediction dispatch

    A shallow embedding of the JavaScript sources
    - [server/game_config.js]  (the back-end game registry),
    - [routes/api.js]          (the [POST /predict] dispatcher),
    - [app.js]                 (data loading, normalisation, freshness,
                                next draw date, pack expansion entry point),
    followed by the properties established about them.

    JavaScript objects used as dictionaries are finite maps ([gmap]) from
    property names to values; arrays are lists; a handler that may throw is
    a function into an explicit outcome type. *)

From Stdlib Require Import ZArith QArith Lia.
From stdpp Require Import base option list sorting gmap strings pretty.

Local Set Warnings "-register-all,-clear-no-such-hyp".
Local Open Scope Z_scope.

(* ================================================================== *)
(** ** JavaScript values *)
(* ================================================================== *)

Module JS.

(** An ECMAScript number: not-a-number, an infinity, or a finite value.
    Finite doubles are rationals, so [Q] contains all of them. *)
Inductive number :=
| NaN
| Inf (negative : bool)
| Fin (q : Q).

(** A value as it comes out of [JSON.parse] or out of a strategy;
    [VUndef] is what reading a missing property gives. *)
Inductive value :=
| VUndef
| VNull
| VBool (b : bool)
| VNum (x : number)
| VStr (s : string)
| VArr (items : list value)
| VObj (fields : gmap string value).

Definition num (z : Z) : value := VNum (Fin (inject_Z z)).

(** [isNaN(n)] on a number. *)
Definition isNaN (x : number) : bool :=
  match x with NaN => true | _ => false end.

(** [x >= m] for a number [x] and an integer constant [m]. *)
Definition num_ge (x : number) (m : Z) : bool :=
  match x with
  | NaN => false
  | Inf negative => negb negative
  | Fin q => Qle_bool (inject_Z m) q
  end.

(** [x > m] for a number [x] and an integer constant [m]. *)
Definition num_gt (x : number) (m : Z) : bool :=
  match x with
  | NaN => false
  | Inf negative => negb negative
  | Fin q => negb (Qle_bool q (inject_Z m))
  end.

(** ToBoolean: what [if (v)], [!v] and [v || d] test. *)
Definition truthy (v : value) : bool :=
  match v with
  | VUndef | VNull => false
  | VBool b => b
  | VNum NaN => false
  | VNum (Inf _) => true
  | VNum (Fin q) => negb (Qeq_bool q 0)
  | VStr s => negb (String.eqb s "")
  | VArr _ | VObj _ => true
  end.

(** [v || d]. *)
Definition or_else (v d : value) : value := if truthy v then v else d.

(** [Array.isArray(v)]. *)
Definition isArray (v : value) : bool :=
  match v with VArr _ => true | _ => false end.

(** [o[k]] on a dictionary whose prototype contributes nothing under [k]. *)
Definition prop (o : gmap string value) (k : string) : value :=
  default VUndef (o !! k).

(** The properties of an array, keyed by the decimal index. *)
Definition indexed (l : list value) : gmap string value :=
  list_to_map (imap (fun i x => (pretty i, x)) l).

(** The characters of a string as one-character string values. *)
Fixpoint chars (s : string) : list value :=
  match s with
  | EmptyString => []
  | String c s' => VStr (String c EmptyString) :: chars s'
  end.

(** The own enumerable properties that an object spread [{...v}] copies:
    nothing for [undefined], [null], booleans and numbers. *)
Definition spread (v : value) : gmap string value :=
  match v with
  | VObj fields => fields
  | VArr items => indexed items
  | VStr s => indexed (chars s)
  | _ => ∅
  end.

(** The names every plain object inherits from [Object.prototype]; each
    of them reads as a function or an object, hence as a truthy value. *)
Definition object_prototype_keys : list string :=
  [ "constructor"; "__defineGetter__"; "__defineSetter__"; "hasOwnProperty";
    "__lookupGetter__"; "__lookupSetter__"; "isPrototypeOf";
    "propertyIsEnumerable"; "toString"; "valueOf"; "__proto__";
    "toLocaleString" ].

(** [Array.prototype.slice(0, e)]: a negative [e] counts from the end. *)
Definition slice0 {A} (e : Z) (l : list A) : list A :=
  if e <? 0 then take (Z.to_nat (Z.of_nat (length l) + e)) l
  else take (Z.to_nat e) l.

End JS.

Export JS.

(* ================================================================== *)
(** ** The game registry *)
(* ================================================================== *)

Module Config.

Inductive GameType := lotto | power | digit | today.

Global Instance GameType_eq_dec : EqDecision GameType.
Proof. solve_decision. Defined.

Record GameDefinition := {
  type : GameType;
  range : Z;
  count : Z;
  zone2 : option Z;
  special : option bool;
  drawDays : option (list Z)
}.

(** [GAME_CONFIG.GAMES] of the back end, in source order. *)
Definition GAMES_entries : list (string * GameDefinition) :=
  [ ("大樂透", {| type := lotto; range := 49; count := 6; zone2 := None;
                 special := Some true; drawDays := Some [2; 5] |});
    ("威力彩", {| type := power; range := 38; count := 6; zone2 := Some 8;
                 special := None; drawDays := Some [1; 4] |});
    ("今彩539", {| type := lotto; range := 39; count := 5; zone2 := None;
                  special := Some false; drawDays := Some [1; 2; 3; 4; 5; 6] |});
    ("3星彩", {| type := digit; range := 9; count := 3; zone2 := None;
                special := None; drawDays := Some [1; 2; 3; 4; 5; 6] |});
    ("4星彩", {| type := digit; range := 9; count := 4; zone2 := None;
                special := None; drawDays := Some [1; 2; 3; 4; 5; 6] |}) ].

Definition GAMES : gmap string GameDefinition := list_to_map GAMES_entries.

(** [Object.keys(GAME_CONFIG.GAMES)]. *)
Definition GAMES_keys : list string := GAMES_entries.*1.

End Config.

Export Config.

(* ================================================================== *)
(** ** The prediction dispatcher: [router.post('/predict')] *)
(* ================================================================== *)

Module Api.

(** The four cases of [switch (school)]. *)
Inductive School := balance | stat | pattern | ai.

Definition school_name (s : School) : string :=
  match s with
  | balance => "balance" | stat => "stat" | pattern => "pattern" | ai => "ai"
  end.

Definition registered_schools : list string :=
  [ "balance"; "stat"; "pattern"; "ai" ].

(** [===] against the case labels: only a string can match. *)
Definition school_of (v : value) : option School :=
  match v with
  | VStr s =>
      if String.eqb s "balance" then Some balance
      else if String.eqb s "stat" then Some stat
      else if String.eqb s "pattern" then Some pattern
      else if String.eqb s "ai" then Some ai
      else None
  | _ => None
  end.

(** What [GAME_CONFIG.GAMES[key]] evaluates to when it is truthy: an
    entry of the registry, or a member inherited from [Object.prototype]. *)
Inductive resolved :=
| Own (def : GameDefinition)
| Inherited (name : string).

Definition games_get (key : string) : option resolved :=
  match GAMES !! key with
  | Some def => Some (Own def)
  | None =>
      if decide (key ∈ object_prototype_keys) then Some (Inherited key)
      else None
  end.

(** The parameter bundle handed to a strategy. *)
Record Params := {
  data : value;
  gameDef : resolved;
  subModeId : value;
  excludeNumbers : value;
  random : bool;
  mode : value;
  setIndex : value;
  packMode : value;
  targetCount : Z;
  seed : value;
  userData : value
}.

(** A strategy call either returns a value or throws an error with a
    message; [message] is what [error.message] gives in the [catch] block,
    which reads it outside production only.  In production the reply does
    not depend on what was thrown. *)
Inductive outcome :=
| Returns (result : value)
| Throws (message : string).

Record Reply := { status : Z; json : gmap string value }.

(** A handled request: the reply, and the strategy that was called. *)
Record Run := { reply : Reply; invoked : option School }.

(** [mode === 'random']. *)
Definition is_random (mode : value) : bool :=
  match mode with VStr s => String.eqb s "random" | _ => false end.

(** [mode.startsWith('pack')]: only strings have the method; on any
    other truthy value the call is a [TypeError]. *)
Definition startsWith_pack (mode : value) : option bool :=
  match mode with
  | VStr s => Some (String.prefix "pack" s)
  | _ => None
  end.

Definition startsWith_error : string := "mode.startsWith is not a function".
Definition metadata_error (result : value) : string :=
  match result with
  | VNull => "Cannot read properties of null (reading 'metadata')"
  | _ => "Cannot read properties of undefined (reading 'metadata')"
  end.

(** [result.metadata]; reading a property of [undefined] or [null] is a
    [TypeError]. *)
Definition member_metadata (result : value) : option value :=
  match result with
  | VUndef | VNull => None
  | VObj fields => Some (prop fields "metadata")
  | _ => Some VUndef
  end.

Section Dispatcher.

(** ToString on a non-string value (used when such a value indexes
    the registry). *)
Variable ToString : value → string.
(** [new Date().toISOString()]. *)
Variable timestamp : string.
(** [process.env.NODE_ENV === 'production']. *)
Variable production : bool.
(** The four imported strategies. *)
Variables algoBalance algoStat algoPattern algoAI : Params → outcome.

Definition to_property_key (v : value) : string :=
  match v with VStr s => s | _ => ToString v end.

Definition strategy (s : School) : Params → outcome :=
  match s with
  | balance => algoBalance
  | stat => algoStat
  | pattern => algoPattern
  | ai => algoAI
  end.

(** The [catch] block. *)
Definition caught (message : string) : Reply :=
  {| status := 500;
     json := {[ "success" := VBool false;
                "error" := VStr "預測執行失敗";
                "message" := VStr (if production then "伺服器錯誤" else message) ]} |}.

Definition missing_parameters : Reply :=
  {| status := 400;
     json := {[ "error" := VStr "缺少必要參數";
                "required" := VArr [VStr "game"; VStr "school"; VStr "mode"] ]} |}.

Definition invalid_game (game : value) : Reply :=
  {| status := 400;
     json := {[ "error" := VStr "無效的遊戲類型";
                "game" := game;
                "available" := VArr (VStr <$> GAMES_keys) ]} |}.

Definition unsupported_school (school : value) : Reply :=
  {| status := 400;
     json := {[ "error" := VStr "不支援的學派";
                "school" := school;
                "available" := VArr (VStr <$> registered_schools) ]} |}.

(** The request-derived entries written after the strategy's own
    metadata. *)
Definition stamp (game school mode : value) (own : gmap string value)
  : gmap string value :=
  <["version" := VStr "2.0.0"]>
    (<["timestamp" := VStr timestamp]>
      (<["mode" := mode]> (<["school" := school]> (<["game" := game]> own)))).

Definition pack_response (game school mode : value) (tickets : list value)
  : Reply :=
  {| status := 200;
     json := {[ "success" := VBool true;
                "tickets" := VArr tickets;
                "metadata" :=
                  VObj (<["count" := num (Z.of_nat (length tickets))]>
                          (stamp game school mode ∅)) ]} |}.

(** [{ success: true, ...result, metadata: {...result.metadata, ...} }]. *)
Definition single_response (game school mode result own_metadata : value)
  : Reply :=
  {| status := 200;
     json := <["metadata" := VObj (stamp game school mode (spread own_metadata))]>
               (spread result ∪ {[ "success" := VBool true ]}) |}.

(** Lines 99-127: response shaping by the run-time type of the result. *)
Definition shape (game school mode : value) (result : value) : Reply :=
  match result with
  | VArr tickets => pack_response game school mode tickets
  | _ =>
      match member_metadata result with
      | None => caught (metadata_error result)
      | Some own_metadata =>
          single_response game school mode result own_metadata
      end
  end.

(** Lines 30-97: validation, the parameter bundle and the choice of the
    strategy.  The result is either the reply of an early [return] (or
    of the [catch] block), or the strategy to call with its bundle. *)
Definition dispatch (body : gmap string value) : Reply + School * Params :=
  let game := prop body "game" in
  let school := prop body "school" in
  let mode := prop body "mode" in
  let setIndex := match body !! "setIndex" with
                  | None | Some VUndef => num 0
                  | Some v => v
                  end in
  if negb (truthy game) || negb (truthy school) || negb (truthy mode)
  then inl missing_parameters
  else
    match games_get (to_property_key game) with
    | None => inl (invalid_game game)
    | Some def =>
        match startsWith_pack mode with
        | None => inl (caught startsWith_error)
        | Some pack =>
            let params :=
              {| data := or_else (prop body "historyData") (VArr []);
                 gameDef := def;
                 subModeId := prop body "subMode";
                 excludeNumbers := or_else (prop body "excludeNumbers") (VArr []);
                 random := is_random mode;
                 mode := mode;
                 setIndex := setIndex;
                 packMode := if pack then mode else VNull;
                 targetCount := 5;
                 seed := prop body "seed";
                 userData := prop body "userData" |} in
            match school_of school with
            | None => inl (unsupported_school school)
            | Some s => inr (s, params)
            end
        end
    end.

(** The whole handler. *)
Definition predict (body : gmap string value) : Run :=
  match dispatch body with
  | inl early => {| reply := early; invoked := None |}
  | inr (s, params) =>
      {| reply :=
           match strategy s params with
           | Throws message => caught message
           | Returns result =>
               shape (prop body "game") (prop body "school")
                     (prop body "mode") result
           end;
         invoked := Some s |}
  end.

End Dispatcher.

End Api.

(* ================================================================== *)
(** ** What a strategy returns for one ticket *)
(* ================================================================== *)

Module Prediction.

(** Modelled from the spec: a tagged number of a selection.  The
    strategies that build it are imported by the sources but not among
    them; [renderRow] of [app.js] reads the members [val] and [tag]. *)
Record Tagged := { val : value; tag : value }.

(** Modelled from the spec: the single selection of the data model
    (PredictionResult, case (a) of section 3): a sequence of tagged
    numbers, plus an optional [groupReason] and an optional [metadata]
    (which holds the [isCandidate] flag).  [renderRow] reads the same
    three members of a result. *)
Record Selection := {
  numbers : list Tagged;
  groupReason : option value;
  metadata : option (gmap string value)
}.

Definition tagged_value (t : Tagged) : value :=
  VObj {[ "val" := val t; "tag" := tag t ]}.

Definition with_member (k : string) (v : option value)
    (fields : gmap string value) : gmap string value :=
  match v with
  | Some x => <[k := x]> fields
  | None => fields
  end.

(** The object that a strategy returns for the selection. *)
Definition selection_fields (r : Selection) : gmap string value :=
  with_member "metadata" (VObj <$> metadata r)
    (with_member "groupReason" (groupReason r)
       {[ "numbers" := VArr (tagged_value <$> numbers r) ]}).

Definition selection_value (r : Selection) : value :=
  VObj (selection_fields r).

End Prediction.

(* ================================================================== *)
(** ** The front end: [app.js] *)
(* ================================================================== *)

Module App.

(** A draw as the feeds deliver it.  [date] is the instant that
    [new Date(item.date)] denotes, in milliseconds (records whose date
    does not parse are not represented); [jackpot] is the optional
    amount; [numbers] and [numbers_size] are arbitrary JSON values until
    they are cleaned. *)
Module Raw.
Record t := {
  period : Z;
  date : Z;
  numbers : value;
  numbers_size : value;
  jackpot : option Z
}.
End Raw.

(** A draw of [state.rawData], after [processAndRender]. *)
Module Draw.
Record t := {
  period : Z;
  date : Z;
  numbers : list number;
  numbers_size : list number;
  jackpot : option Z
}.
End Draw.

Record State := {
  rawData : gmap string (list Draw.t);
  rawJackpots : gmap string Z
}.

(** The parsed baseline file: [jsonData.games || jsonData] and
    [jsonData.jackpots]. *)
Record Baseline := {
  games : gmap string (list Raw.t);
  jackpots : option (gmap string Z)
}.

Definition day_ms : Z := 86400000.

(* ---------------------------------------------------------------- *)
(** *** Jackpot refresh (lines 242-252 of [initFetch]) *)

(** [arr.sort((a, b) => new Date(b.date) - new Date(a.date))]: a stable
    sort, newest first. *)
Fixpoint insert_newest (r : Raw.t) (l : list Raw.t) : list Raw.t :=
  match l with
  | [] => [r]
  | x :: rest =>
      if Raw.date r <? Raw.date x then x :: insert_newest r rest
      else r :: l
  end.

Definition sort_newest_first (l : list Raw.t) : list Raw.t :=
  foldr insert_newest [] l.

(** [latest.jackpot && latest.jackpot > 0]. *)
Definition positive_jackpot (r : Raw.t) : option Z :=
  match Raw.jackpot r with
  | Some j => if negb (j =? 0) && (0 <? j) then Some j else None
  | None => None
  end.

(** One iteration of [for (const game in liveData)]. *)
Definition jackpot_step (game : string) (records : list Raw.t)
    (table : gmap string Z) : gmap string Z :=
  match sort_newest_first records with
  | [] => table
  | latest :: _ =>
      match positive_jackpot latest with
      | Some j => <[game := j]> table
      | None => table
      end
  end.

Definition update_jackpots (liveData : gmap string (list Raw.t))
    (table : gmap string Z) : gmap string Z :=
  map_fold jackpot_step table liveData.

(** The live batch once the loop has sorted each of its arrays in place. *)
Definition sorted_live (liveData : gmap string (list Raw.t))
  : gmap string (list Raw.t) :=
  sort_newest_first <$> liveData.

(* ---------------------------------------------------------------- *)
(** *** Normalisation ([processAndRender]) *)

Section Normalisation.

(** [GAME_CONFIG.GAMES] of the front end ([./game_config.js]). *)
Variable FRONT_GAMES : gmap string GameDefinition.
(** [Number(s)] on a string. *)
Variable StringToNumber : string → number.
(** [Number(v)] on an array or an object. *)
Variable ObjectToNumber : value → number.

Definition Number (v : value) : number :=
  match v with
  | VUndef => NaN
  | VNull => Fin 0
  | VBool b => Fin (if b then 1 else 0)
  | VNum x => x
  | VStr s => StringToNumber s
  | VArr _ | VObj _ => ObjectToNumber v
  end.

Definition keeps (minValid : Z) (n : number) : bool :=
  negb (isNaN n) && num_ge n minValid.

Definition clean (minValid : Z) (arr : value) : list number :=
  match arr with
  | VArr items => filter (fun n => keeps minValid n) (Number <$> items)
  | _ => []
  end.

Definition minValid_of (gameDef : option GameDefinition) : Z :=
  match gameDef with
  | Some def => if decide (type def = digit) then 0 else 1
  | None => 1
  end.

Definition truncate {A} (gameDef : option GameDefinition) (l : list A)
  : list A :=
  match gameDef with
  | Some def =>
      match type def with
      | today => slice0 5 l
      | digit => slice0 (count def) l
      | _ => l
      end
  | None => l
  end.

(** The callback of [.map(item => ...)]. *)
Definition normalize (game : string) (item : Raw.t) : Draw.t :=
  let gameDef := FRONT_GAMES !! game in
  let minValid := minValid_of gameDef in
  {| Draw.period := Raw.period item;
     Draw.date := Raw.date item;
     Draw.numbers := truncate gameDef (clean minValid (Raw.numbers item));
     Draw.numbers_size :=
       truncate gameDef (clean minValid (Raw.numbers_size item));
     Draw.jackpot := Raw.jackpot item |}.

Definition processAndRender (merged : gmap string (list Raw.t))
  : gmap string (list Draw.t) :=
  map_imap (fun game (items : list Raw.t) => Some (normalize game <$> items))
           merged.

End Normalisation.

(* ---------------------------------------------------------------- *)
(** *** Freshness ([checkSystemStatus]) *)

Inductive DateLabel :=
| NoData                    (* "無資料" *)
| LocaleDate (instant : Z). (* latestDateObj.toLocaleDateString() *)

Inductive SystemStatus :=
| StatusSuccess
| StatusError (dateStr : DateLabel).

(** One iteration of [for (let game in this.state.rawData)]; the
    accumulator is [(hasLatestData, latestDateObj)]. *)
Definition scan_game (threeDaysAgo : Z) (acc : bool * option Z)
    (entry : string * list Draw.t) : bool * option Z :=
  match entry.2 with
  | [] => acc
  | first :: _ =>
      let lastDate := Draw.date first in
      (acc.1 || (threeDaysAgo <=? lastDate),
       match acc.2 with
       | None => Some lastDate
       | Some latest =>
           if latest <? lastDate then Some lastDate else Some latest
       end)
  end.

Definition dataCount (data : gmap string (list Draw.t)) : nat :=
  foldl (fun acc curr => (acc + length curr)%nat) 0%nat (map_to_list data).*2.

Section Freshness.

(** [getDate()] of the date at an instant: its day of the month, in the
    time zone of the browser. *)
Variable getDate : Z → Z.
(** [setDate(day)] on the date at an instant: the instant that the date
    denotes afterwards, which has the same month and the same time of day
    in the time zone of the browser and the given day of the month (a day
    below 1 counts back into the month before). *)
Variable setDate : Z → Z → Z.

(** Lines 340-342; [now] stands for both [new Date()] of the function. *)
Definition threeDaysAgo (now : Z) : Z :=
  let today := now in
  setDate now (getDate today - 3).

Definition checkSystemStatus (now : Z) (data : gmap string (list Draw.t))
  : SystemStatus :=
  let '(hasLatestData, latestDateObj) :=
    foldl (scan_game (threeDaysAgo now)) (false, None) (map_to_list data) in
  let dateStr := match latestDateObj with
                 | Some d => LocaleDate d
                 | None => NoData
                 end in
  if (dataCount data =? 0)%nat || negb hasLatestData
  then StatusError dateStr
  else StatusSuccess.

End Freshness.

(* ---------------------------------------------------------------- *)
(** *** Next draw date ([getNextDrawDate]) *)

Inductive NextDraw :=
| Unscheduled                       (* "--" *)
| DrawOn (day : Z) (label : string).

Definition weekMap : list string :=
  [ "日"; "一"; "二"; "三"; "四"; "五"; "六" ].

(** Dates are local day numbers counted from Thursday 1970-01-01;
    [getDay] is the weekday, Sunday being 0. *)
Definition getDay (day : Z) : Z := (day + 4) mod 7.

(** [weekMap[w]]. *)
Definition weekday_label (w : Z) : string :=
  default "undefined" (weekMap !! Z.to_nat w).

Definition getNextDrawDate (drawDays : option (list Z)) (today : Z)
  : NextDraw :=
  match drawDays with
  | None | Some [] => Unscheduled
  | Some ((first :: _) as days) =>
      let currentDay := getDay today in
      let daysToAdd :=
        match List.find (fun d => currentDay <? d) days with
        | Some nextDay => nextDay - currentDay
        | None => (7 - currentDay) + first
        end in
      let nextDate := today + daysToAdd in
      DrawOn nextDate (weekday_label (getDay nextDate))
  end.

(* ---------------------------------------------------------------- *)
(** *** The two merge passes of [initFetch] *)

(** The timeline order: newest first by date, ties by descending period. *)
Definition newer_first (x y : Raw.t) : Prop :=
  Raw.date y < Raw.date x ∨
  (Raw.date y = Raw.date x ∧ Raw.period y ≤ Raw.period x).

Global Instance newer_first_dec x y : Decision (newer_first x y).
Proof. unfold newer_first. apply _. Defined.

(** One source batch written over what lower-precedence sources gave. *)
Definition add_batch (records : list Raw.t) (acc : gmap Z Raw.t)
  : gmap Z Raw.t :=
  foldl (fun acc r => <[Raw.period r := r]> acc) acc records.

Definition merge_index (sources : list (list Raw.t)) : gmap Z Raw.t :=
  foldl (fun acc records => add_batch records acc) ∅ sources.

Definition merge_game (sources : list (list Raw.t)) : list Raw.t :=
  merge_sort newer_first (map_to_list (merge_index sources)).*2.

Definition records_of (batch : gmap string (list Raw.t)) (game : string)
  : list Raw.t :=
  default [] (batch !! game).

(** Modelled from the spec: [mergeLotteryData] of [utils.js], which the
    sources import but do not contain.  Section 4.1: the batches are
    combined per game in ascending precedence (baseline, archived
    batches, cached batch, live feed); a record of a later source
    replaces, as a whole, the record of an earlier source with the same
    period; the timeline is ordered newest first by date, ties by
    descending period.  The fourth argument may be [null]. *)
Definition mergeLotteryData (baseline : gmap string (list Raw.t))
    (archives : list (gmap string (list Raw.t)))
    (cache : gmap string (list Raw.t))
    (live : option (gmap string (list Raw.t)))
  : gmap string (list Raw.t) :=
  let sources := baseline :: archives ++ [cache; default ∅ live] in
  map_imap
    (fun game (_ : unit) =>
       Some (merge_game ((fun batch => records_of batch game) <$> sources)))
    (gset_to_gmap () (⋃ (dom <$> sources))).

(** Lines 231-236: the first call of [mergeLotteryData]. *)
Definition initial_pass (baseData : gmap string (list Raw.t))
    (zipResults : list (gmap string (list Raw.t)))
    (localCache : gmap string (list Raw.t)) : gmap string (list Raw.t) :=
  mergeLotteryData baseData zipResults localCache None.

(** Lines 254-259: the second call; [liveData] takes the third
    position and has been sorted by the jackpot loop. *)
Definition refresh_pass (baseData : gmap string (list Raw.t))
    (zipResults : list (gmap string (list Raw.t)))
    (liveData : gmap string (list Raw.t)) : gmap string (list Raw.t) :=
  mergeLotteryData baseData zipResults (sorted_live liveData) None.

Section InitFetch.

Variable FRONT_GAMES : gmap string GameDefinition.
Variable StringToNumber : string → number.
Variable ObjectToNumber : value → number.

(** The data path of [initFetch] (lines 201-261) once the fetches have
    settled: the state after the first render and the state at the end.
    [baseline] is [None] when the response is not [ok], [cache] is
    [loadFromCache()?.data], [liveData] the result of
    [fetchLiveLotteryData()]. *)
Definition initFetch (st : State) (baseline : option Baseline)
    (zipResults : list (gmap string (list Raw.t)))
    (cache : option (gmap string (list Raw.t)))
    (liveData : option (gmap string (list Raw.t))) : State * State :=
  let baseData := match baseline with Some b => games b | None => ∅ end in
  let table := match baseline with
               | Some b => default ∅ (jackpots b)
               | None => rawJackpots st
               end in
  let localCache := default ∅ cache in
  let render merged :=
    processAndRender FRONT_GAMES StringToNumber ObjectToNumber merged in
  let first :=
    {| rawData := render (initial_pass baseData zipResults localCache);
       rawJackpots := table |} in
  match liveData with
  | Some live =>
      if (0 <? size live)%nat
      then (first,
            {| rawData := render (refresh_pass baseData zipResults live);
               rawJackpots := update_jackpots live table |})
      else (first, first)
  | None => (first, first)
  end.

End InitFetch.

(* ---------------------------------------------------------------- *)
(** *** Pack expansion ([handleCandidateClick]) *)

(** A ticket: the tagged numbers of one selection. *)
Record Ticket := { ticket_numbers : list value }.

(** The sub-sequences of [pool] that have [k] elements, in pool order. *)
Fixpoint combinations {A} (k : nat) (pool : list A) : list (list A) :=
  match k, pool with
  | O, _ => [[]]
  | S _, [] => []
  | S k', x :: rest =>
      (cons x <$> combinations k' rest) ++ combinations k rest
  end.

(** Modelled from the spec: [PredictionEngine.expandPack] of
    [services/prediction-engine.js], which the sources call but do not
    contain.  Section 4.5: the engine enumerates, deterministically, the
    complete set of tickets of [count] numbers that can be drawn from the
    candidate pool; a pool smaller than [count] gives the empty sequence. *)
Definition expandPack (numbers : list value) (gameDef : GameDefinition)
  : list Ticket :=
  Build_Ticket <$> combinations (Z.to_nat (count gameDef)) numbers.

Inductive Block :=
| Banner (tickets : nat)               (* "... (n 注)" and the back button *)
| Row (res : Ticket) (index : nat).    (* renderRow(res, idx + 1, label) *)

(** The new content of [#prediction-output], or [None] when the handler
    leaves the page as it is. *)
Definition handleCandidateClick (container_present : bool)
    (numbers : list value) (gameDef : GameDefinition)
  : option (list Block) :=
  if negb container_present then None
  else
    let expandedTickets := expandPack numbers gameDef in
    if (0 <? length expandedTickets)%nat
    then Some (Banner (length expandedTickets)
               :: imap (fun idx res => Row res (idx + 1)) expandedTickets)
    else None.

End App.

(* ================================================================== *)
(** ** The dashboard of [app.js]: statistics and history rows *)
(* ================================================================== *)

Module Dashboard.

Import App.

Global Instance Q_eq_dec : EqDecision Q.
Proof. solve_decision. Defined.

Global Instance number_eq_dec : EqDecision number.
Proof. solve_decision. Defined.

(** The property name under which [freq[n]] files a number: its decimal
    string.  Two numbers have the same string exactly when they are the
    same number, so the name is represented by the number in lowest
    terms. *)
Definition key_of (n : number) : number :=
  match n with
  | Fin q => Fin (Qred q)
  | _ => n
  end.

(** [freq[k] = (freq[k] || 0) + 1] on an object whose properties are kept
    in creation order. *)
Fixpoint bump (k : number) (freq : list (number * nat))
  : list (number * nat) :=
  match freq with
  | [] => [(k, 1%nat)]
  | (k', c) :: rest =>
      if decide (k' = k) then (k', S c) :: rest
      else (k', c) :: bump k rest
  end.

(** The two nested [forEach] of [renderHotStats]. *)
Definition tally (dataset : list Draw.t) : list (number * nat) :=
  foldl (fun freq d =>
           foldl (fun freq n => bump (key_of n) freq) freq (Draw.numbers d))
        [] dataset.

(** A property name that is an array index: a whole number from 0 to
    2^32 - 2.  [Object.entries] lists these first, in ascending order, and
    the other names after them in creation order. *)
Definition is_index (k : number) : bool :=
  match k with
  | Fin q => Pos.eqb (Qden q) 1 && (0 <=? Qnum q) && (Qnum q <=? 4294967294)
  | _ => false
  end.

Definition index_value (k : number) : Z :=
  match k with
  | Fin q => Qnum q
  | _ => 0
  end.

Fixpoint insert_index (e : number * nat) (l : list (number * nat))
  : list (number * nat) :=
  match l with
  | [] => [e]
  | x :: rest =>
      if index_value e.1 <? index_value x.1 then e :: l
      else x :: insert_index e rest
  end.

(** [Object.entries(freq)]. *)
Definition entries (freq : list (number * nat)) : list (number * nat) :=
  foldr insert_index [] (filter (fun e => is_index e.1) freq)
  ++ filter (fun e => ¬ is_index e.1) freq.

(** [.sort((a, b) => b[1] - a[1])]: a stable sort, greatest count first. *)
Fixpoint insert_hot (e : number * nat) (l : list (number * nat))
  : list (number * nat) :=
  match l with
  | [] => [e]
  | x :: rest =>
      if (e.2 <? x.2)%nat then x :: insert_hot e rest
      else e :: l
  end.

Definition sort_hot (l : list (number * nat)) : list (number * nat) :=
  foldr insert_hot [] l.

(** [Object.entries(freq).sort(...).slice(0, 5)]. *)
Definition hot_numbers (dataset : list Draw.t) : list (number * nat) :=
  slice0 5 (sort_hot (entries (tally dataset))).

Inductive HotStats :=
| NoStats                              (* the "無數據" placeholder *)
| Hot (top : list (number * nat)).     (* one ball and its count per pair *)

(** What [renderHotStats] puts into its element; [None] when the element
    does not exist and nothing is done. *)
Definition renderHotStats (element_present : bool)
    (dataset : option (list Draw.t)) : option HotStats :=
  if negb element_present then None
  else
    match dataset with
    | None | Some [] => Some NoStats
    | Some records => Some (Hot (hot_numbers records))
    end.

(** *** One row of [renderHistoryList] *)

Record Balls := {
  normal : list number;       (* plain balls, in display order *)
  special : option number     (* the bonus ball, when one is shown *)
}.

(** [sourceNumbers]: the sorted variant when the order is 'size' and the
    record has one, the drawn order otherwise.  The later filter on
    [typeof n === 'number'] keeps every element of a normalised record. *)
Definition source_numbers (drawOrder : string) (item : Draw.t) : list number :=
  if String.eqb drawOrder "size" && (0 <? length (Draw.numbers_size item))%nat
  then Draw.numbers_size item
  else Draw.numbers item.

Definition history_balls (drawOrder : string) (gameDef : GameDefinition)
    (item : Draw.t) : Balls :=
  let numbers := source_numbers drawOrder item in
  if decide (type gameDef = digit) then
    {| normal := numbers; special := None |}
  else
    let len := Z.of_nat (length numbers) in
    if (bool_decide (type gameDef = power)
        || bool_decide (Config.special gameDef = Some true))
       && (count gameDef <? len)
    then {| normal := slice0 (len - 1) numbers;
            special := numbers !! Z.to_nat (len - 1) |}
    else {| normal := numbers; special := None |}.

End Dashboard.

(* ================================================================== *)
(** ** Guards of [app.js]: initialisation flags and call rates *)
(* ================================================================== *)

Module Lifecycle.

Record Flags := {
  isInitialized : bool;
  isInitializing : bool
}.

(** [init()] up to its first [await]: [None] when the call returns at one
    of the two guards. *)
Definition init_enter (st : Flags) : option Flags :=
  if isInitialized st then None
  else if isInitializing st then None
  else Some {| isInitialized := isInitialized st; isInitializing := true |}.

(** The rest of [init()], once the awaited steps have settled; [ok] is
    [false] when one of them threw and the [catch] block ran. *)
Definition init_leave (ok : bool) (st : Flags) : Flags :=
  {| isInitialized := if ok then true else isInitialized st;
     isInitializing := false |}.

(** What can happen to the flags: [init()] is called, or a call that is
    waiting settles. *)
Inductive Event :=
| Call
| Settle (ok : bool).

(** The flags together with the number of calls that are waiting. *)
Definition step (st : Flags * nat) (e : Event) : Flags * nat :=
  match e with
  | Call =>
      match init_enter st.1 with
      | Some st' => (st', S st.2)
      | None => st
      end
  | Settle ok =>
      match st.2 with
      | O => st
      | S n => (init_leave ok st.1, n)
      end
  end.

Definition run (events : list Event) : Flags * nat :=
  foldl step ({| isInitialized := false; isInitializing := false |}, O) events.

(** The guard at the head of [initFetch] and of [updateDashboard]:
    [if (now - last < window) return; last = now].  The result is the new
    value of [last] when the call goes on. *)
Definition gate (window last now : Z) : option Z :=
  if now - last <? window then None else Some now.

Definition initFetch_gate (lastInitFetchTime now : Z) : option Z :=
  gate 5000 lastInitFetchTime now.

(** [CONFIG.DASHBOARD_UPDATE_THROTTLE] is 100. *)
Definition updateDashboard_gate (lastDashboardUpdate now : Z) : option Z :=
  gate 100 lastDashboardUpdate now.

(** The calls, given by their clock readings, that get past a guard
    whose state starts at [last]. *)
Fixpoint admitted (guard : Z → Z → option Z) (last : Z) (calls : list Z)
  : list Z :=
  match calls with
  | [] => []
  | now :: rest =>
      match guard last now with
      | Some last' => now :: admitted guard last' rest
      | None => admitted guard last rest
      end
  end.

End Lifecycle.

(* ================================================================== *)
(** ** [updateDashboard] of [app.js]: filters and windows *)
(* ================================================================== *)

Module Board.

Import App Dashboard.

(** [String.prototype.includes]. *)
Fixpoint includes (s sub : string) : bool :=
  String.prefix sub s ||
  match s with
  | EmptyString => false
  | String _ rest => includes rest sub
  end.

(** [x === y] on two numbers. *)
Definition num_eq (x y : number) : bool :=
  match x, y with
  | Fin p, Fin q => Qeq_bool p q
  | Inf a, Inf b => Bool.eqb a b
  | _, _ => false
  end.

(** The three search fields of [state]; each is a string, empty when the
    filter is off. *)
Record Filters := {
  filterPeriod : string;
  filterYear : string;
  filterMonth : string
}.

(** What the function hands to the elements of the page. *)
Record View := {
  total_count : nat;               (* 'total-count' *)
  latest_period : option Z;        (* 'latest-period'; [None] is "--期" *)
  no_result_hidden : bool;         (* 'no-result-msg' carries 'hidden' *)
  stat_year : list Draw.t;         (* dataset of 'stat-year' *)
  stat_month : list Draw.t;        (* dataset of 'stat-month' *)
  stat_recent : list Draw.t;       (* dataset of 'stat-recent' *)
  history : list Draw.t            (* argument of [renderHistoryList] *)
}.

Section Filtering.

(** [String(item.period)]. *)
Variable period_text : Z → string.
(** [getFullYear()] and [getMonth()] of the date at an instant, in the
    time zone of the browser. *)
Variables getFullYear getMonth : Z → Z.
(** [parseInt] with one argument. *)
Variable parseInt : string → number.

Definition on (field : string) : bool := negb (String.eqb field "").

Definition period_matches (f : Filters) (item : Draw.t) : bool :=
  includes (period_text (Draw.period item)) (filterPeriod f).

Definition year_matches (f : Filters) (item : Draw.t) : bool :=
  num_eq (Fin (inject_Z (getFullYear (Draw.date item))))
         (parseInt (filterYear f)).

Definition month_matches (f : Filters) (item : Draw.t) : bool :=
  num_eq (Fin (inject_Z (getMonth (Draw.date item) + 1)))
         (parseInt (filterMonth f)).

(** Lines 419-427: the three filters, one after the other. *)
Definition filtered (f : Filters) (data : list Draw.t) : list Draw.t :=
  let data := if on (filterPeriod f)
              then filter (fun item => period_matches f item) data
              else data in
  let data := if on (filterYear f)
              then filter (fun item => year_matches f item) data
              else data in
  if on (filterMonth f)
  then filter (fun item => month_matches f item) data
  else data.

(** Lines 405 and 419-449, for a call that got past the guard of lines
    397-401 and for a game that has a definition ([gameDef.type] is read
    on the way); [records] is [state.rawData[gameName]]. *)
Definition updateDashboard (f : Filters) (records : option (list Draw.t))
  : View :=
  let data := filtered f (default [] records) in
  {| total_count := length data;
     latest_period := Draw.period <$> head data;
     no_result_hidden := (0 <? length data)%nat;
     stat_year := data;
     stat_month := slice0 30 data;
     stat_recent := slice0 10 data;
     history := slice0 5 data |}.

End Filtering.

End Board.

(* ================================================================== *)
(** ** The second route of [routes/api.js]: [POST /pack] *)
(* ================================================================== *)

Module PackRoute.

Import Api.

Section Handler.

(** [new Date().toISOString()]. *)
Variable timestamp : string.

Definition missing_parameters : Reply :=
  {| status := 400;
     json := {[ "error" := VStr "缺少必要參數";
                "required" := VArr [VStr "game"; VStr "school"] ]} |}.

(** Lines 152-186.  Nothing in the [try] block throws once the body is
    an object, so the [catch] block is never entered. *)
Definition pack (body : gmap string value) : Reply :=
  let game := prop body "game" in
  let school := prop body "school" in
  if negb (truthy game) || negb (truthy school)
  then missing_parameters
  else
    {| status := 200;
       json := {[ "tickets" := VArr [];
                  "metadata" :=
                    VObj {[ "game" := game;
                            "school" := school;
                            "mode" := VStr "pack";
                            "subMode" := prop body "subMode";
                            "timestamp" := VStr timestamp ]};
                  "_status" := VStr "mock_data" ]} |}.

End Handler.

End PackRoute.

(* ================================================================== *)
(** ** Concrete inputs *)
(* ================================================================== *)

Import Api.

(** A strategy stub that returns the same value whatever it is given. *)
Definition constant_strategy (result : value) : Params → outcome :=
  fun _ => Returns result.

(** The request [{game: '大樂透', school: 'astro', mode: 5}]. *)
Definition request_unknown_school : gmap string value :=
  {[ "game" := VStr "大樂透"; "school" := VStr "astro"; "mode" := num 5 ]}.

(** The request [{game: 'toString', school: 'balance', mode: 'single'}]:
    the name is no key of the registry, but the lookup finds the member
    every object inherits, and the strategy runs. *)
Definition request_inherited_game : gmap string value :=
  {[ "game" := VStr "toString"; "school" := VStr "balance";
     "mode" := VStr "single" ]}.

(** The request [{game: '大樂透', school: 'balance', mode: 5}]. *)
Definition request_numeric_mode : gmap string value :=
  {[ "game" := VStr "大樂透"; "school" := VStr "balance"; "mode" := num 5 ]}.

(** A request for one selection of 今彩539 from the balance school. *)
Definition single_request : gmap string value :=
  {[ "game" := VStr "今彩539"; "school" := VStr "balance";
     "mode" := VStr "single" ]}.

(** A request for a pack from the same school. *)
Definition pack_request : gmap string value :=
  {[ "game" := VStr "今彩539"; "school" := VStr "balance";
     "mode" := VStr "pack_1" ]}.

Definition sample_timestamp : string := "2024-01-05T12:00:00.000Z".

(** The handler with every strategy replaced by one stub. *)
Definition predict_with (stub : Params → outcome) : gmap string value → Run :=
  Api.predict (fun _ => "") sample_timestamp false stub stub stub stub.

Definition two_tickets : list value :=
  [ VObj {[ "numbers" := VArr [num 1; num 2; num 3; num 4; num 5] ]};
    VObj {[ "numbers" := VArr [num 6; num 7; num 8; num 9; num 10] ]} ].

(** A single selection: two tagged numbers, a reason and the candidate
    flag. *)
Definition candidate_selection : Prediction.Selection :=
  {| Prediction.numbers :=
       [ {| Prediction.val := num 3; Prediction.tag := VStr "hot" |};
         {| Prediction.val := num 8; Prediction.tag := VStr "Pos2" |} ];
     Prediction.groupReason := Some (VStr "balanced");
     Prediction.metadata := Some {[ "isCandidate" := VBool true ]} |}.

(** A single selection whose own metadata names another game. *)
Definition selection_with_game : value :=
  VObj {[ "numbers" := VArr [num 3; num 8; num 21; num 30; num 39];
          "metadata" := VObj {[ "game" := VStr "大樂透";
                                "isCandidate" := VBool true ]} ]}.

Import App.

(** Conversions that reject every string and every object. *)
Definition no_number_s : string → number := fun _ => NaN.
Definition no_number_o : value → number := fun _ => NaN.

(** Midnight UTC of the given day of January 2024. *)
Definition jan (d : Z) : Z := 1704067200000 + (d - 1) * day_ms.

(** A 大樂透 draw of the given period, day of January and jackpot. *)
Definition live_draw (p day : Z) (j : option Z) : Raw.t :=
  {| Raw.period := p; Raw.date := jan day;
     Raw.numbers := VArr [num 1; num 2; num 3; num 4; num 5; num 6];
     Raw.numbers_size := VArr [num 1; num 2; num 3; num 4; num 5; num 6];
     Raw.jackpot := j |}.

(** Three live draws with jackpots 0, 500 and 0 on ascending dates. *)
Definition live_zero_500_zero : gmap string (list Raw.t) :=
  {[ "大樂透" := [ live_draw 101 2 (Some 0); live_draw 102 5 (Some 500);
                   live_draw 103 9 (Some 0) ] ]}.

(** Three live draws whose most recent one carries the jackpot 500. *)
Definition live_500_latest : gmap string (list Raw.t) :=
  {[ "大樂透" := [ live_draw 101 2 (Some 0); live_draw 103 9 (Some 500);
                   live_draw 102 5 (Some 0) ] ]}.

(** A baseline file without draws whose jackpot for 大樂透 is 100. *)
Definition baseline_with_jackpot : Baseline :=
  {| games := ∅; jackpots := Some {[ "大樂透" := 100 ]} |}.

Definition empty_state : State := {| rawData := ∅; rawJackpots := ∅ |}.

(** A 大樂透 draw whose numbers include 100 and 3.5. *)
Definition draw_out_of_range : Raw.t :=
  {| Raw.period := 7; Raw.date := jan 2;
     Raw.numbers := VArr [num 100; VNum (Fin (7 # 2)); num 0; VStr "x"; num 12];
     Raw.numbers_size := VNull;
     Raw.jackpot := None |}.

(** A normalised draw of the given period on the given day of January. *)
Definition draw_on (p day : Z) : Draw.t :=
  {| Draw.period := p; Draw.date := jan day;
     Draw.numbers := [Fin 3; Fin 8; Fin 21; Fin 30; Fin 39];
     Draw.numbers_size := [Fin 3; Fin 8; Fin 21; Fin 30; Fin 39];
     Draw.jackpot := None |}.


Definition data_four_days : gmap string (list Draw.t) :=
  {[ "今彩539" := [draw_on 11 6; draw_on 10 3] ]}.

(** Tuesday 2024-01-02 as a day number. *)
Definition tuesday : Z := 19724.

(** A pool of five candidates and 今彩539, which draws five numbers. *)
Definition five_candidates : list value :=
  [ VObj {[ "val" := num 3; "tag" := VStr "hot" ]};
    VObj {[ "val" := num 8; "tag" := VStr "hot" ]};
    VObj {[ "val" := num 21; "tag" := VStr "cold" ]};
    VObj {[ "val" := num 30; "tag" := VStr "pair" ]};
    VObj {[ "val" := num 39; "tag" := VStr "tail" ]} ].

Definition game_539 : GameDefinition :=
  {| type := lotto; range := 39; count := 5; zone2 := None;
     special := Some false; drawDays := Some [1; 2; 3; 4; 5; 6] |}.

(** A cached batch with one draw that no other source knows. *)
Definition cache_only_90 : gmap string (list Raw.t) :=
  {[ "大樂透" := [ live_draw 90 1 None ] ]}.

(** A baseline with the single draw of period 100. *)
Definition baseline_100 : gmap string (list Raw.t) :=
  {[ "大樂透" := [ live_draw 100 1 None ] ]}.

Import Dashboard Lifecycle.

(** A strategy stub that throws. *)
Definition throwing_strategy : Params → outcome :=
  fun _ => Throws "history is not iterable".

(** A normalised 大樂透 draw with the given numbers. *)
Definition draw_of (p day : Z) (numbers : list Z) : Draw.t :=
  {| Draw.period := p; Draw.date := jan day;
     Draw.numbers := (fun z => Fin (inject_Z z)) <$> numbers;
     Draw.numbers_size := (fun z => Fin (inject_Z z)) <$> merge_sort Z.le numbers;
     Draw.jackpot := None |}.

(** Three draws in which 7 occurs twice and 9 once. *)
Definition window_7_7_9 : list Draw.t :=
  [ draw_of 3 9 [7; 12]; draw_of 2 5 [9; 7]; draw_of 1 2 [30; 41] ].

(** Two draws in which 9 and 3 both occur twice, 9 being drawn first. *)
Definition window_tie : list Draw.t :=
  [ draw_of 2 5 [9; 3]; draw_of 1 2 [3; 9] ].

(** 大樂透 of the back-end registry: six numbers and a bonus number. *)
Definition game_lotto : GameDefinition :=
  {| type := lotto; range := 49; count := 6; zone2 := None;
     Config.special := Some true; drawDays := Some [2; 5] |}.

(** A 大樂透 draw as drawn, with its seventh, bonus, number last. *)
Definition draw_with_bonus : Draw.t :=
  {| Draw.period := 113000001; Draw.date := jan 2;
     Draw.numbers := [Fin 21; Fin 4; Fin 33; Fin 17; Fin 8; Fin 45; Fin 29];
     Draw.numbers_size := [];
     Draw.jackpot := None |}.

Import Board.

(** The three search fields left empty. *)
Definition no_filters : Filters :=
  {| filterPeriod := ""; filterYear := ""; filterMonth := "" |}.

(** Twelve draws, newest first; every one of them holds 7. *)
Definition twelve_draws : list Draw.t :=
  (fun p => draw_of p p [7; 40 - p]) <$> [12; 11; 10; 9; 8; 7; 6; 5; 4; 3; 2; 1].

(** A dashboard whose year and month fields are never consulted. *)
Definition dashboard_of (f : Filters) (records : option (list Draw.t)) : View :=
  Board.updateDashboard (fun p => pretty p) (fun _ => 2024) (fun _ => 0)
    (fun _ => NaN) f records.

(** ** The two [Date] built-ins of the freshness evaluation

    [getDate] and [setDate] as ECMAScript defines them (Day,
    TimeWithinDay, LocalTime, MakeDay, MakeDate and UTC of the language
    specification), for a time zone given by its offsets. *)

Module Calendar.

(** The civil date (year, month 1-12, day of the month) of a day number
    counted from 1970-01-01, in the proleptic Gregorian calendar. *)
Definition civil_from_days (day : Z) : Z * Z * Z :=
  let z := day + 719468 in
  let era := z / 146097 in
  let doe := z - era * 146097 in
  let yoe := (doe - doe / 1460 + doe / 36524 - doe / 146096) / 365 in
  let doy := doe - (365 * yoe + yoe / 4 - yoe / 100) in
  let mp := (5 * doy + 2) / 153 in
  let d := doy - (153 * mp + 2) / 5 + 1 in
  let m := if mp <? 10 then mp + 3 else mp - 9 in
  (yoe + era * 400 + (if m <=? 2 then 1 else 0), m, d).

(** The day number of a civil date; [d] may lie outside the month. *)
Definition days_from_civil (y m d : Z) : Z :=
  let y := if m <=? 2 then y - 1 else y in
  let era := y / 400 in
  let yoe := y - era * 400 in
  let doy := (153 * (if 2 <? m then m - 3 else m + 9) + 2) / 5 + d - 1 in
  era * 146097 + (yoe * 365 + yoe / 4 - yoe / 100 + doy) - 719468.

(** A time zone: the offset of local time from UTC, in milliseconds, at
    an instant and at a local time value. *)
Record Zone := {
  offset_at : Z → Z;
  offset_of_local : Z → Z
}.

Definition getDate (zone : Zone) (t : Z) : Z :=
  (civil_from_days ((t + offset_at zone t) / App.day_ms)).2.

Definition setDate (zone : Zone) (t dt : Z) : Z :=
  let local := t + offset_at zone t in
  let '(y, m, _) := civil_from_days (local / App.day_ms) in
  let moved :=
    (days_from_civil y m 1 + dt - 1) * App.day_ms + local mod App.day_ms in
  moved - offset_of_local zone moved.

Definition hour_ms : Z := 3600000.

Definition utc : Zone :=
  {| offset_at := fun _ => 0; offset_of_local := fun _ => 0 |}.

(** New York around 10 March 2024: five hours behind UTC until 07:00 UTC
    of that day (02:00 local time), four hours behind from then on. *)
Definition new_york_march_2024 : Zone :=
  {| offset_at := fun t =>
       if t <? 19792 * App.day_ms + 7 * hour_ms
       then - 5 * hour_ms else - 4 * hour_ms;
     offset_of_local := fun local =>
       if local <? 19792 * App.day_ms + 3 * hour_ms
       then - 5 * hour_ms else - 4 * hour_ms |}.

End Calendar.

(** The freshness evaluation of a browser in the zone UTC. *)
Definition checkSystemStatus_utc (now : Z) (data : gmap string (list Draw.t))
  : SystemStatus :=
  checkSystemStatus (Calendar.getDate Calendar.utc)
    (Calendar.setDate Calendar.utc) now data.

(** Noon of 11 March 2024 in New York (16:00 UTC). *)
Definition new_york_noon : Z := 19793 * day_ms + 16 * Calendar.hour_ms.

(** A timeline whose newest record is dated [age] milliseconds before
    [now]. *)
Definition data_aged (now age : Z) : gmap string (list Draw.t) :=
  {[ "今彩539" :=
       [ {| Draw.period := 12; Draw.date := now - age;
            Draw.numbers := [Fin 3; Fin 8; Fin 21; Fin 30; Fin 39];
            Draw.numbers_size := [Fin 3; Fin 8; Fin 21; Fin 30; Fin 39];
            Draw.jackpot := None |} ] ]}.


(* ================================================================== *)
(** ** Vocabulary of the statements *)
(* ================================================================== *)

(** [latest] is the first record of [records] that carries the greatest
    date: what a stable, newest-first sort puts at index 0. *)
Definition newest_of (records : list Raw.t) (latest : Raw.t) : Prop :=
  ∃ before after,
    records = before ++ latest :: after ∧
    (∀ r, r ∈ before → Raw.date r < Raw.date latest) ∧
    (∀ r, r ∈ after → Raw.date r ≤ Raw.date latest).

(** The entry of one game after the loop, from the entry before it. *)
Definition jackpot_entry (records : list Raw.t) (old : option Z) : option Z :=
  match sort_newest_first records with
  | [] => old
  | latest :: _ =>
      match positive_jackpot latest with
      | Some j => Some j
      | None => old
      end
  end.

(** The jackpot table before the live loop: the baseline file's
    [jackpots], or the previous table when the file could not be read. *)
Definition table_before (st : State) (baseline : option Baseline)
  : gmap string Z :=
  match baseline with
  | Some b => default ∅ (jackpots b)
  | None => rawJackpots st
  end.





(** The index while the sources are written into it, from any start. *)
Definition merge_from (acc : gmap Z Raw.t) (sources : list (list Raw.t))
  : gmap Z Raw.t :=
  foldl (fun acc records => add_batch records acc) acc sources.

Import Dashboard.

(** The count filed under [k] in a frequency table, 0 when there is none. *)
Fixpoint freq_count (k : number) (freq : list (number * nat)) : nat :=
  match freq with
  | [] => O
  | (k', c) :: rest => if decide (k' = k) then c else freq_count k rest
  end.

(** The names of all numbers of a window, record after record. *)
Definition drawn_keys (dataset : list Draw.t) : list number :=
  key_of <$> (dataset ≫= Draw.numbers).

(** How many times the number named [k] was drawn in the window. *)
Definition occurrences (k : number) (dataset : list Draw.t) : nat :=
  length (filter (fun k' => k' = k) (drawn_keys dataset)).

(** Greatest count first. *)
Definition hotter (x y : number * nat) : Prop := (y.2 ≤ x.2)%nat.

(** Smaller array index first. *)
Definition index_le (x y : number * nat) : Prop :=
  index_value x.1 ≤ index_value y.1.

(** Each reading is at least [window] after the one before it, the first
    one at least [window] after [last]. *)
Fixpoint spaced (window last : Z) (readings : list Z) : Prop :=
  match readings with
  | [] => True
  | now :: rest => window ≤ now - last ∧ spaced window now rest
  end.

Import Lifecycle.

(** What holds of the flags and the number of waiting calls at all times. *)
Definition flags_consistent (st : Flags * nat) : Prop :=
  (st.2 ≤ 1)%nat ∧
  (isInitializing st.1 = true ↔ st.2 = 1%nat) ∧
  (isInitialized st.1 = true → st.2 = 0%nat).

(* ================================================================== *)
(** * The definitions on concrete inputs *)
(* ================================================================== *)

Example predict_without_mode :
  predict_with (constant_strategy VNull)
    {[ "game" := VStr "大樂透"; "school" := VStr "stat" ]}
  = {| reply := missing_parameters; invoked := None |}.
Proof. vm_compute. reflexivity. Qed.

Example predict_empty_mode :
  predict_with (constant_strategy VNull)
    {[ "game" := VStr "大樂透"; "school" := VStr "stat"; "mode" := VStr "" ]}
  = {| reply := missing_parameters; invoked := None |}.
Proof. vm_compute. reflexivity. Qed.

Example predict_unknown_game_reply :
  json (reply (predict_with (constant_strategy VNull)
                 {[ "game" := VStr "樂合彩"; "school" := VStr "stat";
                    "mode" := VStr "single" ]})) !! "available"
  = Some (VArr [VStr "大樂透"; VStr "威力彩"; VStr "今彩539";
                VStr "3星彩"; VStr "4星彩"]).
Proof. vm_compute. reflexivity. Qed.

Example predict_unknown_school_reply :
  predict_with (constant_strategy VNull)
    {[ "game" := VStr "大樂透"; "school" := VStr "wuxing";
       "mode" := VStr "single" ]}
  = {| reply := unsupported_school (VStr "wuxing"); invoked := None |}.
Proof. vm_compute. reflexivity. Qed.

Example predict_null_result :
  status (reply (predict_with (constant_strategy VNull) single_request)) = 500.
Proof. vm_compute. reflexivity. Qed.

Example dispatch_pack_params :
  match Api.dispatch (fun _ => "") false pack_request with
  | inr (s, p) =>
      s = balance ∧ packMode p = VStr "pack_1" ∧ random p = false ∧
      targetCount p = 5 ∧ data p = VArr [] ∧ setIndex p = num 0
  | inl _ => False
  end.
Proof. vm_compute. repeat split. Qed.

Example sort_newest_first_stable :
  Raw.period <$>
    sort_newest_first [ live_draw 1 3 None; live_draw 2 7 None;
                        live_draw 3 7 None; live_draw 4 5 None ]
  = [2; 3; 4; 1].
Proof. vm_compute. reflexivity. Qed.

Example slice0_examples :
  slice0 3 [1; 2; 3; 4; 5] = [1; 2; 3] ∧
  slice0 9 [1; 2; 3] = [1; 2; 3] ∧
  slice0 (-1) [1; 2; 3] = [1; 2].
Proof. repeat split. Qed.

Example normalize_digit_game :
  Draw.numbers
    (normalize GAMES no_number_s no_number_o "3星彩"
       {| Raw.period := 1; Raw.date := jan 2;
          Raw.numbers := VArr [num 0; num 9; VNull; num (-1); num 4];
          Raw.numbers_size := VUndef; Raw.jackpot := None |})
  = [Fin 0; Fin 9; Fin 0].
Proof. vm_compute. reflexivity. Qed.

Example checkSystemStatus_no_data :
  checkSystemStatus_utc (jan 10) ∅ = StatusError NoData ∧
  checkSystemStatus_utc (jan 10) {[ "大樂透" := [] ]} = StatusError NoData.
Proof. split; vm_compute; reflexivity. Qed.

Example getNextDrawDate_wraps :
  getDay (tuesday + 3) = 5 ∧
  getNextDrawDate (Some [2; 5]) (tuesday + 3) = DrawOn (tuesday + 7) "二".
Proof. split; vm_compute; reflexivity. Qed.

Example combinations_two_of_three :
  combinations 2 [1; 2; 3] = [[1; 2]; [1; 3]; [2; 3]].
Proof. reflexivity. Qed.

Example handleCandidateClick_rows :
  handleCandidateClick true five_candidates game_539
    = Some [ Banner 1; Row {| ticket_numbers := five_candidates |} 1 ] ∧
  handleCandidateClick true (take 4 five_candidates) game_539 = None ∧
  handleCandidateClick false five_candidates game_539 = None.
Proof. repeat split. Qed.

Example merge_live_replaces_baseline :
  records_of
    (refresh_pass {[ "大樂透" := [ live_draw 102 5 None ] ]} []
                  live_zero_500_zero) "大樂透"
  = [ live_draw 103 9 (Some 0); live_draw 102 5 (Some 500);
      live_draw 101 2 (Some 0) ].
Proof. vm_compute. reflexivity. Qed.

Example candidate_selection_value :
  Prediction.selection_value candidate_selection
  = VObj {[ "numbers" :=
              VArr [ VObj {[ "val" := num 3; "tag" := VStr "hot" ]};
                     VObj {[ "val" := num 8; "tag" := VStr "Pos2" ]} ];
            "groupReason" := VStr "balanced";
            "metadata" := VObj {[ "isCandidate" := VBool true ]} ]}.
Proof. vm_compute. reflexivity. Qed.

Example hot_numbers_7_above_9 :
  hot_numbers window_7_7_9
  = [ (Fin 7, 2%nat); (Fin 9, 1%nat); (Fin 12, 1%nat); (Fin 30, 1%nat);
      (Fin 41, 1%nat) ].
Proof. vm_compute. reflexivity. Qed.

Example hot_numbers_tie_ascending :
  hot_numbers window_tie = [ (Fin 3, 2%nat); (Fin 9, 2%nat) ].
Proof. vm_compute. reflexivity. Qed.

Example hot_numbers_fraction_last :
  hot_numbers [ {| Draw.period := 1; Draw.date := jan 2;
                   Draw.numbers := [Fin (7 # 2); Fin 5; Fin (14 # 4)];
                   Draw.numbers_size := []; Draw.jackpot := None |} ]
  = [ (Fin (7 # 2), 2%nat); (Fin 5, 1%nat) ].
Proof. vm_compute. reflexivity. Qed.

Example history_balls_bonus :
  history_balls "appear" game_lotto draw_with_bonus
  = {| normal := [Fin 21; Fin 4; Fin 33; Fin 17; Fin 8; Fin 45];
       special := Some (Fin 29) |} ∧
  history_balls "size" game_lotto draw_with_bonus
  = history_balls "appear" game_lotto draw_with_bonus.
Proof. split; vm_compute; reflexivity. Qed.

Example init_two_calls_one_run :
  run [Call; Call; Settle true; Call]
  = ({| isInitialized := true; isInitializing := false |}, O) ∧
  run [Call; Settle false; Call]
  = ({| isInitialized := false; isInitializing := true |}, 1%nat).
Proof. split; reflexivity. Qed.

Example admitted_calls :
  admitted initFetch_gate 0 [1704067200000; 1704067201000; 1704067205000;
                             1704067209999; 1704067210000]
  = [1704067200000; 1704067205000; 1704067210000].
Proof. vm_compute. reflexivity. Qed.

Example includes_samples :
  Board.includes "113000045" "0004" = true ∧
  Board.includes "113000045" "" = true ∧
  Board.includes "113000045" "46" = false ∧
  Board.includes "" "1" = false.
Proof. repeat split. Qed.

Example dashboard_period_filter :
  Draw.period <$> history (dashboard_of
                             {| filterPeriod := "1"; filterYear := "";
                                filterMonth := "" |} (Some twelve_draws))
  = [12; 11; 10; 1] ∧
  total_count (dashboard_of no_filters (Some twelve_draws)) = 12%nat ∧
  latest_period (dashboard_of no_filters None) = None.
Proof. split; [|split]; vm_compute; reflexivity. Qed.

Example pack_without_mode :
  status (PackRoute.pack sample_timestamp
            {[ "game" := VStr "no such game"; "school" := VStr "wuxing" ]})
  = 200.
Proof. reflexivity. Qed.

Example calendar_samples :
  Calendar.civil_from_days 19724 = (2024, 1, 2) ∧
  Calendar.civil_from_days 19782 = (2024, 2, 29) ∧
  Calendar.civil_from_days (-1) = (1969, 12, 31) ∧
  Calendar.days_from_civil 2024 3 10 = 19792 ∧
  Calendar.days_from_civil 2024 3 0 = 19782 ∧
  Calendar.getDate Calendar.utc (jan 10) = 10.
Proof. repeat split. Qed.

Example threeDaysAgo_utc :
  threeDaysAgo (Calendar.getDate Calendar.utc) (Calendar.setDate Calendar.utc)
    (jan 10) = jan 7 ∧
  threeDaysAgo (Calendar.getDate Calendar.utc) (Calendar.setDate Calendar.utc)
    (jan 2 + 5 * Calendar.hour_ms)
  = jan 2 + 5 * Calendar.hour_ms - 3 * day_ms.
Proof. split; vm_compute; reflexivity. Qed.

(** Across the change to daylight-saving time three calendar days are 71
    hours: a record that is 71 hours old is fresh, one that is 71 and a
    half hours old is not. *)
Example threeDaysAgo_daylight_saving :
  threeDaysAgo (Calendar.getDate Calendar.new_york_march_2024)
    (Calendar.setDate Calendar.new_york_march_2024) new_york_noon
  = new_york_noon - 71 * Calendar.hour_ms ∧
  checkSystemStatus (Calendar.getDate Calendar.new_york_march_2024)
    (Calendar.setDate Calendar.new_york_march_2024) new_york_noon
    (data_aged new_york_noon (71 * Calendar.hour_ms))
  = StatusSuccess ∧
  checkSystemStatus (Calendar.getDate Calendar.new_york_march_2024)
    (Calendar.setDate Calendar.new_york_march_2024) new_york_noon
    (data_aged new_york_noon (71 * Calendar.hour_ms + 1800000))
  = StatusError (LocaleDate (new_york_noon - 71 * Calendar.hour_ms - 1800000)).
Proof. split; [|split]; vm_compute; reflexivity. Qed.

(* ================================================================== *)
(** * Properties of the dispatcher *)
(* ================================================================== *)

Section DispatcherFacts.

Variable ToString : value → string.
Variable timestamp : string.
Variable production : bool.
Variables algoBalance algoStat algoPattern algoAI : Params → outcome.

Local Abbreviation dispatch := (Api.dispatch ToString production).
Local Abbreviation strategy :=
  (Api.strategy algoBalance algoStat algoPattern algoAI).
Local Abbreviation predict :=
  (Api.predict ToString timestamp production
               algoBalance algoStat algoPattern algoAI).
Local Abbreviation shape := (Api.shape timestamp production).
Local Abbreviation stamp := (Api.stamp timestamp).

Lemma school_of_registered v s :
  school_of v = Some s → v = VStr (school_name s).
Proof.
  unfold school_of. intros H.
  repeat case_match; try discriminate; simplify_eq;
    match goal with
    | E : String.eqb _ _ = true |- _ => apply String.eqb_eq in E; by subst
    end.
Qed.

(** What a request that reaches a strategy looks like. *)
Lemma dispatch_inr body s p :
  dispatch body = inr (s, p) →
  truthy (prop body "game") = true ∧
  truthy (prop body "school") = true ∧
  (∃ m, prop body "mode" = VStr m ∧ m ≠ "") ∧
  games_get (to_property_key ToString (prop body "game")) = Some (gameDef p) ∧
  prop body "school" = VStr (school_name s).
Proof.
  unfold Api.dispatch.
  destruct (truthy (prop body "game")) eqn:Hg; simpl; [|discriminate].
  destruct (truthy (prop body "school")) eqn:Hs; simpl; [|discriminate].
  destruct (truthy (prop body "mode")) eqn:Hm; simpl; [|discriminate].
  destruct (games_get _) as [def|] eqn:Hdef; [|discriminate].
  destruct (prop body "mode") as [| |b|x|m|items|fields] eqn:Hmode;
    simpl; try discriminate.
  destruct (school_of _) as [s'|] eqn:Hschool; [|discriminate].
  intros [= <- <-]. simpl. repeat split; try done.
  - exists m. split; [done|]. intros ->. discriminate.
  - by apply school_of_registered.
Qed.

Lemma predict_run body s p :
  dispatch body = inr (s, p) →
  predict body =
    {| reply := match strategy s p with
                | Throws message => caught production message
                | Returns result =>
                    shape (prop body "game") (prop body "school")
                          (prop body "mode") result
                end;
       invoked := Some s |}.
Proof. unfold Api.predict. by intros ->. Qed.

Lemma predict_early body early :
  dispatch body = inl early →
  predict body = {| reply := early; invoked := None |}.
Proof. unfold Api.predict. by intros ->. Qed.

Lemma stamp_lookup game school mode own :
  stamp game school mode own !! "game" = Some game ∧
  stamp game school mode own !! "school" = Some school ∧
  stamp game school mode own !! "mode" = Some mode ∧
  stamp game school mode own !! "timestamp" = Some (VStr timestamp) ∧
  stamp game school mode own !! "version" = Some (VStr "2.0.0").
Proof. unfold Api.stamp. repeat split; by simplify_map_eq. Qed.

Lemma stamp_lookup_other game school mode own k :
  k ∉ ["game"; "school"; "mode"; "timestamp"; "version"] →
  stamp game school mode own !! k = own !! k.
Proof.
  intros Hk. unfold Api.stamp.
  rewrite !lookup_insert_ne; [done|..]; intros <-; apply Hk; set_solver.
Qed.

Lemma selection_fields_lookup selection :
  Prediction.selection_fields selection !! "tickets" = None ∧
  Prediction.selection_fields selection !! "success" = None ∧
  Prediction.selection_fields selection !! "numbers"
    = Some (VArr (Prediction.tagged_value <$> Prediction.numbers selection)).
Proof.
  unfold Prediction.selection_fields, Prediction.with_member.
  destruct (Prediction.metadata selection), (Prediction.groupReason selection);
    simpl; repeat split;
    rewrite ?lookup_insert_ne by done;
    by rewrite ?lookup_singleton_eq, ?lookup_singleton_ne by done.
Qed.

(** C1.  For a request that reaches a strategy: an array result gives the
    pack response, whose [tickets] is that array and whose
    [metadata.count] is its length; a single selection gives the
    single-selection response, which carries [success], the numbers of
    the selection and a [metadata] block, and has no [tickets] field.
    For any object result the top-level [tickets] entry of the response
    is the object's own one: the dispatcher itself adds none. *)
Theorem predict_shape_by_result body s p :
  dispatch body = inr (s, p) →
  (∀ tickets, strategy s p = Returns (VArr tickets) →
     status (reply (predict body)) = 200 ∧
     json (reply (predict body)) !! "success" = Some (VBool true) ∧
     json (reply (predict body)) !! "tickets" = Some (VArr tickets) ∧
     ∃ md, json (reply (predict body)) !! "metadata" = Some (VObj md) ∧
           md !! "count" = Some (num (Z.of_nat (length tickets)))) ∧
  (∀ selection,
     strategy s p = Returns (Prediction.selection_value selection) →
     status (reply (predict body)) = 200 ∧
     json (reply (predict body)) !! "success" = Some (VBool true) ∧
     json (reply (predict body)) !! "numbers"
       = Some (VArr (Prediction.tagged_value
                       <$> Prediction.numbers selection)) ∧
     is_Some (json (reply (predict body)) !! "metadata") ∧
     json (reply (predict body)) !! "tickets" = None) ∧
  (∀ fields, strategy s p = Returns (VObj fields) →
     status (reply (predict body)) = 200 ∧
     json (reply (predict body)) !! "tickets" = fields !! "tickets").
Proof.
  intros Hd. rewrite (predict_run _ _ _ Hd).
  assert (∀ fields k, k ≠ "metadata" →
            json (shape (prop body "game") (prop body "school")
                    (prop body "mode") (VObj fields)) !! k
            = (fields ∪ {[ "success" := VBool true ]}) !! k) as Hfield.
  { intros fields k Hk. simpl. by rewrite lookup_insert_ne. }
  split; [|split].
  - intros tickets ->. simpl. repeat split; try by simplify_map_eq.
    eexists. split; [by simplify_map_eq|]. by simplify_map_eq.
  - intros selection ->. unfold Prediction.selection_value.
    destruct (selection_fields_lookup selection) as (Ht & Hs & Hn).
    split; [done|]. cbn [reply].
    rewrite (Hfield _ "success"), (Hfield _ "numbers"), (Hfield _ "tickets")
      by done.
    rewrite !lookup_union, Ht, Hs, Hn.
    rewrite lookup_singleton_eq, !lookup_singleton_ne by done.
    split; [done|]. split; [done|]. split; [|done].
    simpl. rewrite lookup_insert_eq. by eexists.
  - intros fields ->. split; [done|]. cbn [reply].
    rewrite Hfield by done.
    rewrite lookup_union, lookup_singleton_ne by done.
    by destruct (fields !! "tickets").
Qed.

(** C6 (as amended).  In a single-selection response the [metadata]
    block is the strategy's own metadata overwritten by the request's
    [game], [school] and [mode] and by the dispatcher's [timestamp] and
    [version]: on these five keys the dispatcher's value wins, every
    other key keeps the strategy's value. *)
Theorem predict_single_metadata body s p result own :
  dispatch body = inr (s, p) →
  strategy s p = Returns result →
  isArray result = false →
  member_metadata result = Some own →
  ∃ md, json (reply (predict body)) !! "metadata" = Some (VObj md) ∧
    md !! "game" = Some (prop body "game") ∧
    md !! "school" = Some (prop body "school") ∧
    md !! "mode" = Some (prop body "mode") ∧
    md !! "timestamp" = Some (VStr timestamp) ∧
    md !! "version" = Some (VStr "2.0.0") ∧
    ∀ k, k ∉ ["game"; "school"; "mode"; "timestamp"; "version"] →
         md !! k = spread own !! k.
Proof.
  intros Hd Hres Harr Hown. rewrite (predict_run _ _ _ Hd), Hres. simpl.
  assert (shape (prop body "game") (prop body "school") (prop body "mode")
            result
          = single_response timestamp (prop body "game") (prop body "school")
              (prop body "mode") result own) as ->.
  { destruct result; simpl in *; try discriminate; by inversion Hown. }
  simpl. eexists. split; [by rewrite lookup_insert_eq|].
  destruct (stamp_lookup (prop body "game") (prop body "school")
              (prop body "mode") (spread own)) as (?&?&?&?&?).
  repeat split; try done. apply stamp_lookup_other.
Qed.

(** The presence check and the registry check come before everything
    else and answer 400 without calling a strategy. *)
Lemma predict_missing_parameter body :
  truthy (prop body "game") && truthy (prop body "school")
    && truthy (prop body "mode") = false →
  predict body =
    {| reply := missing_parameters; invoked := None |}.
Proof.
  intros H. apply predict_early. unfold Api.dispatch.
  destruct (truthy (prop body "game")), (truthy (prop body "school")),
    (truthy (prop body "mode")); simpl in *; done.
Qed.

Lemma predict_unknown_game body :
  truthy (prop body "game") && truthy (prop body "school")
    && truthy (prop body "mode") = true →
  games_get (to_property_key ToString (prop body "game")) = None →
  predict body =
    {| reply := invalid_game (prop body "game"); invoked := None |}.
Proof.
  intros H Hg. apply predict_early. unfold Api.dispatch.
  destruct (truthy (prop body "game")), (truthy (prop body "school")),
    (truthy (prop body "mode")); simpl in *; try done.
  by rewrite Hg.
Qed.

(** With a string [mode] an unregistered school is answered 400. *)
Lemma predict_unknown_school body m :
  truthy (prop body "game") && truthy (prop body "school") = true →
  is_Some (games_get (to_property_key ToString (prop body "game"))) →
  prop body "mode" = VStr m → m ≠ "" →
  school_of (prop body "school") = None →
  predict body =
    {| reply := unsupported_school (prop body "school"); invoked := None |}.
Proof.
  intros H [def Hg] Hm Hne Hs. apply predict_early. unfold Api.dispatch.
  destruct (truthy (prop body "game")), (truthy (prop body "school"));
    simpl in *; try done.
  rewrite Hm, Hg, Hs. simpl.
  destruct (String.eqb_spec m ""); [done|]. done.
Qed.

(** Any truthy [mode] that is not a string ends in the [catch] block,
    whatever the school is, once the game resolves. *)
Lemma predict_mode_not_string body :
  truthy (prop body "game") && truthy (prop body "school")
    && truthy (prop body "mode") = true →
  is_Some (games_get (to_property_key ToString (prop body "game"))) →
  (∀ m, prop body "mode" ≠ VStr m) →
  predict body =
    {| reply := caught production startsWith_error; invoked := None |}.
Proof.
  intros H [def Hg] Hm. apply predict_early. unfold Api.dispatch.
  destruct (truthy (prop body "game")), (truthy (prop body "school")),
    (truthy (prop body "mode")); simpl in *; try done.
  rewrite Hg.
  destruct (prop body "mode"); simpl; try done. by destruct (Hm s).
Qed.

(** C2 (failing inputs).  In [{game: '大樂透', school: 'astro', mode: 5}]
    the school is not a registered strategy, yet the answer is the generic
    500 failure of the [catch] block, not the 400 reply that names the
    school and lists the legal ones.  In
    [{game: 'toString', school: 'balance', mode: 'single'}] the game is no
    key of the registry, yet the lookup finds the member that every object
    inherits, no 400 reply is sent and the strategy is called. *)
Theorem predict_validation_misses :
  (school_of (prop request_unknown_school "school") = None ∧
   predict request_unknown_school =
     {| reply := caught production startsWith_error; invoked := None |} ∧
   status (reply (predict request_unknown_school)) = 500 ∧
   reply (predict request_unknown_school)
     ≠ unsupported_school (VStr "astro")) ∧
  (GAMES !! "toString" = None ∧
   invoked (predict request_inherited_game) = Some balance ∧
   reply (predict request_inherited_game) ≠ invalid_game (VStr "toString")).
Proof.
  split.
  - assert (predict request_unknown_school =
      {| reply := caught production startsWith_error; invoked := None |}) as E.
    { apply predict_mode_not_string; [done| |done]. by eexists. }
    rewrite E. simpl. repeat split; try done.
  - split; [reflexivity|]. split; [reflexivity|].
    assert (dispatch request_inherited_game
            = inr (balance,
                   {| data := VArr []; gameDef := Inherited "toString";
                      subModeId := VUndef; excludeNumbers := VArr [];
                      random := false; mode := VStr "single";
                      setIndex := num 0; packMode := VNull; targetCount := 5;
                      seed := VUndef; userData := VUndef |})) as Hd
      by reflexivity.
    rewrite (predict_run _ _ _ Hd). simpl.
    destruct (algoBalance _) as [result|message]; [|discriminate].
    unfold Api.shape, invalid_game.
    destruct result; simpl; try discriminate.
Qed.

(** C10.  There is a request with a truthy, non-string [mode], a game of
    the registry and a registered school that passes the presence check
    and is answered by the [catch] block: status 500 and the generic
    prediction-failure message, not a 400 validation reply; no strategy
    has been called. *)
Theorem predict_numeric_mode_internal_failure :
  ∃ body,
    truthy (prop body "game") && truthy (prop body "school")
      && truthy (prop body "mode") = true ∧
    (∀ m, prop body "mode" ≠ VStr m) ∧
    is_Some (GAMES !! to_property_key ToString (prop body "game")) ∧
    is_Some (school_of (prop body "school")) ∧
    startsWith_pack (prop body "mode") = None ∧
    invoked (predict body) = None ∧
    status (reply (predict body)) = 500 ∧
    json (reply (predict body)) !! "success" = Some (VBool false) ∧
    json (reply (predict body)) !! "error" = Some (VStr "預測執行失敗").
Proof.
  exists request_numeric_mode.
  assert (predict request_numeric_mode =
    {| reply := caught production startsWith_error; invoked := None |}) as E.
  { apply predict_mode_not_string; [done| |done]. by eexists. }
  rewrite E. simpl. repeat split; try done; by eexists.
Qed.

End DispatcherFacts.

(** A pack request answered by a strategy that returns two tickets, and
    a single request answered with a single selection. *)
Lemma predict_shape_by_result_witness :
  json (reply (predict_with (constant_strategy (VArr two_tickets)) pack_request))
    !! "tickets" = Some (VArr two_tickets) ∧
  json (reply (predict_with
                 (constant_strategy
                    (Prediction.selection_value candidate_selection))
                 single_request)) !! "tickets" = None.
Proof.
  split.
  - pose proof (predict_shape_by_result (fun _ => "") sample_timestamp false
                  (constant_strategy (VArr two_tickets))
                  (constant_strategy (VArr two_tickets))
                  (constant_strategy (VArr two_tickets))
                  (constant_strategy (VArr two_tickets))
                  pack_request balance _ eq_refl) as [Hpack _].
    destruct (Hpack two_tickets eq_refl) as (_ & _ & Htickets & _).
    exact Htickets.
  - pose proof (predict_shape_by_result (fun _ => "") sample_timestamp false
                  (constant_strategy
                     (Prediction.selection_value candidate_selection))
                  (constant_strategy
                     (Prediction.selection_value candidate_selection))
                  (constant_strategy
                     (Prediction.selection_value candidate_selection))
                  (constant_strategy
                     (Prediction.selection_value candidate_selection))
                  single_request balance _ eq_refl) as (_ & Hsingle & _).
    destruct (Hsingle candidate_selection eq_refl) as (_ & _ & _ & _ & Hnone).
    exact Hnone.
Defined.

(** A single selection whose metadata names 大樂透 and is a candidate,
    returned for a 今彩539 request. *)
Lemma predict_single_metadata_witness :
  ∃ md,
    json (reply (predict_with (constant_strategy selection_with_game)
                   single_request)) !! "metadata" = Some (VObj md) ∧
    md !! "game" = Some (VStr "今彩539") ∧
    md !! "isCandidate" = Some (VBool true).
Proof.
  destruct (predict_single_metadata (fun _ => "") sample_timestamp false
              (constant_strategy selection_with_game)
              (constant_strategy selection_with_game)
              (constant_strategy selection_with_game)
              (constant_strategy selection_with_game)
              single_request balance _ selection_with_game
              (VObj {[ "game" := VStr "大樂透"; "isCandidate" := VBool true ]})
              eq_refl eq_refl eq_refl eq_refl)
    as (md & Hmd & Hgame & _ & _ & _ & _ & Hother).
  exists md. split; [exact Hmd|]. split; [exact Hgame|].
  rewrite Hother; [reflexivity|]. by apply (bool_decide_unpack _).
Defined.

(** C6 (counterexample).  The strategy's own metadata has a [game] key,
    大樂透; in the response that key holds the request's game, 今彩539, so
    the strategy's key does not win the conflict. *)
Lemma predict_own_metadata_overridden :
  spread (default VUndef (member_metadata selection_with_game)) !! "game"
    = Some (VStr "大樂透") ∧
  spread (prop (json (reply (predict_with
                               (constant_strategy selection_with_game)
                               single_request))) "metadata") !! "game"
    = Some (VStr "今彩539").
Proof. split; vm_compute; reflexivity. Qed.

(* ================================================================== *)
(** * Properties of the jackpot refresh *)
(* ================================================================== *)

Lemma elem_of_insert_newest x r l :
  x ∈ insert_newest r l ↔ x = r ∨ x ∈ l.
Proof.
  induction l as [|y l IH]; simpl.
  - rewrite list_elem_of_singleton, elem_of_nil. naive_solver.
  - destruct (Raw.date r <? Raw.date y).
    + rewrite !elem_of_cons, IH. naive_solver.
    + rewrite !elem_of_cons. naive_solver.
Qed.

Lemma elem_of_sort_newest_first x l :
  x ∈ sort_newest_first l ↔ x ∈ l.
Proof.
  induction l as [|y l IH]; simpl; [done|].
  rewrite elem_of_insert_newest, elem_of_cons, IH. done.
Qed.

Lemma sort_newest_first_head records latest :
  newest_of records latest →
  ∃ rest, sort_newest_first records = latest :: rest.
Proof.
  intros (before & after & -> & Hb & Ha).
  induction before as [|b before IH]; simpl.
  - destruct (sort_newest_first after) as [|x rest] eqn:E; simpl; [by eexists|].
    assert (Raw.date x ≤ Raw.date latest) as Hx.
    { apply Ha, elem_of_sort_newest_first. rewrite E. left. }
    destruct (Z.ltb_spec (Raw.date latest) (Raw.date x)); [lia|by eexists].
  - destruct IH as [rest ->].
    { intros r Hr. apply Hb. by right. }
    simpl. assert (Raw.date b < Raw.date latest) as Hlt by (apply Hb; left).
    destruct (Z.ltb_spec (Raw.date b) (Raw.date latest)); [by eexists|lia].
Qed.

(** Every non-empty batch has such a record. *)
Lemma newest_of_exists records :
  records ≠ [] → ∃ latest, newest_of records latest.
Proof.
  induction records as [|a l IH]; [done|]. intros _.
  destruct l as [|b l'].
  - exists a, [], []. repeat split; intros r Hr; by apply elem_of_nil in Hr.
  - destruct IH as (m & before & after & E & Hb & Ha); [done|].
    destruct (Z.lt_ge_cases (Raw.date a) (Raw.date m)).
    + exists m, (a :: before), after. rewrite E. repeat split; [|done].
      intros r [->|Hr]%elem_of_cons; [done|by apply Hb].
    + exists a, [], (b :: l'). repeat split.
      * intros r Hr; by apply elem_of_nil in Hr.
      * intros r Hr. rewrite E in Hr.
        apply elem_of_app in Hr as [Hr|Hr].
        -- specialize (Hb r Hr). lia.
        -- apply elem_of_cons in Hr as [->|Hr]; [lia|].
           specialize (Ha r Hr). lia.
Qed.

Lemma jackpot_step_lookup game records table g :
  jackpot_step game records table !! g =
    if decide (game = g) then jackpot_entry records (table !! g)
    else table !! g.
Proof.
  unfold jackpot_step, jackpot_entry.
  destruct (sort_newest_first records) as [|latest rest].
  { by case_decide. }
  destruct (positive_jackpot latest) as [j|]; [|by case_decide].
  rewrite lookup_insert. case_decide; by simplify_eq.
Qed.

Lemma update_jackpots_lookup liveData table g :
  update_jackpots liveData table !! g =
    match liveData !! g with
    | Some records => jackpot_entry records (table !! g)
    | None => table !! g
    end.
Proof.
  unfold update_jackpots.
  apply (map_fold_weak_ind (fun (r : gmap string Z) m =>
    r !! g = match m !! g with
             | Some records => jackpot_entry records (table !! g)
             | None => table !! g
             end)).
  - by rewrite lookup_empty.
  - intros i x m r Hi IH. rewrite jackpot_step_lookup, lookup_insert.
    case_decide as Hig; [|done]. subst i. by rewrite IH, Hi.
Qed.

Lemma positive_jackpot_Some r j :
  positive_jackpot r = Some j ↔ Raw.jackpot r = Some j ∧ 0 < j.
Proof.
  unfold positive_jackpot. destruct (Raw.jackpot r) as [k|]; [|naive_solver].
  destruct (Z.eqb_spec k 0), (Z.ltb_spec 0 k); simpl; split;
    try (intros [= ->]); try (intros [[= ->] ?]); try done; lia.
Qed.

Section JackpotFacts.

Variable FRONT_GAMES : gmap string GameDefinition.
Variable StringToNumber : string → number.
Variable ObjectToNumber : value → number.

Local Abbreviation initFetch :=
  (App.initFetch FRONT_GAMES StringToNumber ObjectToNumber).

(** C3 (as amended).  For a game of the live batch, the entry after the
    refresh pass is decided by the single most recent live record: when
    that record carries a positive jackpot the entry is that jackpot, and
    otherwise the entry is left as it was before the loop (the figure of
    the baseline file, if any).  Games outside the live batch keep their
    entry. *)
Theorem refresh_jackpot_entry st baseline zipResults cache liveData game :
  let final := (initFetch st baseline zipResults cache (Some liveData)).2 in
  (∀ records latest,
     liveData !! game = Some records →
     newest_of records latest →
     (∀ j, Raw.jackpot latest = Some j → 0 < j →
           rawJackpots final !! game = Some j) ∧
     (positive_jackpot latest = None →
      rawJackpots final !! game = table_before st baseline !! game)) ∧
  (liveData !! game = None →
   rawJackpots final !! game = table_before st baseline !! game).
Proof.
  intros final.
  assert (rawJackpots final !! game =
          match liveData !! game with
          | Some records =>
              jackpot_entry records (table_before st baseline !! game)
          | None => table_before st baseline !! game
          end) as Hfinal.
  { subst final. unfold App.initFetch, table_before.
    destruct (Nat.ltb_spec 0 (size liveData)) as [Hpos|Hzero]; simpl.
    - apply update_jackpots_lookup.
    - assert (liveData = ∅) as -> by (apply map_size_empty_iff; lia).
      by rewrite lookup_empty. }
  split.
  - intros records latest Hg Hlatest. rewrite Hfinal, Hg.
    destruct (sort_newest_first_head _ _ Hlatest) as [rest Hs].
    unfold jackpot_entry. rewrite Hs. split.
    + intros j Hj Hpos.
      assert (positive_jackpot latest = Some j) as ->; [|done].
      by apply positive_jackpot_Some.
    + by intros ->.
  - intros Hg. by rewrite Hfinal, Hg.
Qed.

End JackpotFacts.

(** The most recent live draw carries 500: the entry becomes 500. *)
Lemma refresh_jackpot_entry_witness :
  rawJackpots
    (App.initFetch GAMES no_number_s no_number_o empty_state
       (Some baseline_with_jackpot) [] None (Some live_500_latest)).2
    !! "大樂透" = Some 500.
Proof.
  pose proof (refresh_jackpot_entry GAMES no_number_s no_number_o empty_state
                (Some baseline_with_jackpot) [] None live_500_latest "大樂透")
    as [Hlive _].
  destruct (Hlive _ (live_draw 103 9 (Some 500)) eq_refl) as [Hpos _].
  - exists [live_draw 101 2 (Some 0)], [live_draw 102 5 (Some 0)].
    split; [reflexivity|].
    split; intros r Hr; apply list_elem_of_singleton in Hr; subst r;
      vm_compute; done.
  - apply (Hpos 500); [reflexivity|lia].
Defined.

(** C3 (counterexample).  Live jackpots 0, 500 and 0 on ascending dates:
    the positive record is the most recent of the positive ones, yet the
    entry after the refresh pass is not 500 but the 100 of the baseline
    file. *)
Lemma refresh_jackpot_ignores_older_positive :
  rawJackpots
    (App.initFetch GAMES no_number_s no_number_o empty_state
       (Some baseline_with_jackpot) [] None (Some live_zero_500_zero)).2
    !! "大樂透" = Some 100.
Proof. vm_compute. reflexivity. Qed.

(* ================================================================== *)
(** * Properties of the normalisation *)
(* ================================================================== *)

Lemma slice0_subseteq {A} (e : Z) (l : list A) x : x ∈ slice0 e l → x ∈ l.
Proof. unfold slice0. destruct (e <? 0); apply subseteq_take. Qed.

Lemma slice0_nil {A} (e : Z) : slice0 e (@nil A) = [].
Proof. unfold slice0. destruct (e <? 0); apply take_nil. Qed.

Lemma slice0_length {A} (e : Z) (l : list A) :
  0 ≤ e → length (slice0 e l) = Nat.min (Z.to_nat e) (length l).
Proof.
  intros He. unfold slice0. destruct (Z.ltb_spec e 0); [lia|].
  apply length_take.
Qed.

Section NormalisationFacts.

Variable FRONT_GAMES : gmap string GameDefinition.
Variable StringToNumber : string → number.
Variable ObjectToNumber : value → number.

Local Abbreviation Number := (App.Number StringToNumber ObjectToNumber).
Local Abbreviation clean := (App.clean StringToNumber ObjectToNumber).
Local Abbreviation normalize :=
  (App.normalize FRONT_GAMES StringToNumber ObjectToNumber).
Local Abbreviation processAndRender :=
  (App.processAndRender FRONT_GAMES StringToNumber ObjectToNumber).

Lemma truncate_subseteq {A} gameDef (l : list A) x :
  x ∈ truncate gameDef l → x ∈ l.
Proof.
  unfold truncate. destruct gameDef as [def|]; [|done].
  destruct (type def); try done; apply slice0_subseteq.
Qed.

(** What [clean] keeps: the coercions that are numbers not below the
    minimum; everything else is dropped. *)
Lemma elem_of_clean minValid items n :
  n ∈ clean minValid (VArr items) ↔
  (∃ v, v ∈ items ∧ n = Number v) ∧ isNaN n = false ∧ num_ge n minValid = true.
Proof.
  unfold App.clean, keeps. rewrite list_elem_of_filter, list_elem_of_fmap.
  destruct (isNaN n), (num_ge n minValid); simpl; naive_solver.
Qed.

Lemma clean_not_array minValid v :
  isArray v = false → clean minValid v = [].
Proof. by destruct v. Qed.

Lemma clean_bounds minValid v n :
  n ∈ clean minValid v → isNaN n = false ∧ num_ge n minValid = true.
Proof.
  destruct v; simpl; try by intros ?%elem_of_nil.
  intros H%elem_of_clean. tauto.
Qed.

Lemma processAndRender_lookup merged game :
  processAndRender merged !! game = (fmap (normalize game)) <$> merged !! game.
Proof.
  unfold App.processAndRender. rewrite map_lookup_imap.
  by destruct (merged !! game).
Qed.

(** C4 (as amended).  After normalisation every value of [numbers] and of
    [numbers_size] is a number, not NaN, that is at least the game's
    minimum (0 for a [digit] game, 1 for every other game and for a game
    without definition); each record is the image of a merged record, whose
    sequences are the coercions that pass this test, in order, cut to 5
    entries for [today] and to [count] entries for [digit]; a field that
    is not an array becomes the empty sequence.  No comparison with
    [range] and no integrality test takes part. *)
Theorem processAndRender_numbers merged game draws draw :
  processAndRender merged !! game = Some draws →
  draw ∈ draws →
  let gameDef := FRONT_GAMES !! game in
  let minValid := minValid_of gameDef in
  (minValid = match gameDef with
              | Some def => if decide (type def = digit) then 0 else 1
              | None => 1
              end) ∧
  (∀ n, n ∈ Draw.numbers draw ∨ n ∈ Draw.numbers_size draw →
        isNaN n = false ∧ num_ge n minValid = true) ∧
  (∃ items item,
     merged !! game = Some items ∧ item ∈ items ∧
     Draw.numbers draw = truncate gameDef (clean minValid (Raw.numbers item)) ∧
     Draw.numbers_size draw =
       truncate gameDef (clean minValid (Raw.numbers_size item)) ∧
     (isArray (Raw.numbers item) = false → Draw.numbers draw = []) ∧
     (isArray (Raw.numbers_size item) = false → Draw.numbers_size draw = []) ∧
     (∀ values n, Raw.numbers item = VArr values →
        (n ∈ clean minValid (Raw.numbers item) ↔
         (∃ v, v ∈ values ∧ n = Number v) ∧
         isNaN n = false ∧ num_ge n minValid = true))).
Proof.
  intros Hlookup Hdraw gameDef minValid.
  rewrite processAndRender_lookup in Hlookup.
  destruct (merged !! game) as [items|] eqn:Hitems; [|done].
  injection Hlookup as <-.
  apply list_elem_of_fmap in Hdraw as (item & -> & Hitem).
  assert (∀ A, truncate (A:=A) gameDef [] = []) as Hnil.
  { intros A. unfold truncate. destruct gameDef as [def|]; [|done].
    destruct (type def); try done; apply slice0_nil. }
  split; [done|]. split.
  - intros n [Hn|Hn]; simpl in Hn;
      apply truncate_subseteq in Hn; by apply clean_bounds in Hn.
  - exists items, item. simpl.
    split; [done|]. split; [done|]. split; [done|]. split; [done|].
    split; [|split].
    + intros Harr. rewrite (clean_not_array _ _ Harr). apply Hnil.
    + intros Harr. rewrite (clean_not_array _ _ Harr). apply Hnil.
    + intros values n ->. apply elem_of_clean.
Qed.

End NormalisationFacts.

(** The value 100 of a 大樂透 record passes the test against the
    minimum 1. *)
Lemma processAndRender_numbers_witness :
  isNaN (Fin (inject_Z 100)) = false ∧ num_ge (Fin (inject_Z 100)) 1 = true.
Proof.
  assert (processAndRender GAMES no_number_s no_number_o
            {[ "大樂透" := [draw_out_of_range] ]} !! "大樂透"
          = Some [normalize GAMES no_number_s no_number_o "大樂透"
                    draw_out_of_range]) as Hlookup
    by (vm_compute; reflexivity).
  destruct (processAndRender_numbers GAMES no_number_s no_number_o _ _ _ _
              Hlookup ltac:(left)) as (_ & Hbounds & _).
  apply Hbounds. left. vm_compute. left.
Defined.

(** C4 (counterexample).  A 大樂透 record (range 49) with the numbers
    100, 3.5, 0, "x" and 12 keeps 100, which is above the range, and 3.5,
    which is no integer. *)
Lemma processAndRender_keeps_out_of_range :
  range <$> GAMES !! "大樂透" = Some 49 ∧
  Draw.numbers <$>
    default [] (processAndRender GAMES no_number_s no_number_o
                  {[ "大樂透" := [draw_out_of_range] ]} !! "大樂透")
  = [[Fin (inject_Z 100); Fin (7 # 2); Fin (inject_Z 12)]] ∧
  num_gt (Fin (inject_Z 100)) 49 = true.
Proof. split; [|split]; vm_compute; reflexivity. Qed.

(* ================================================================== *)
(** * Properties of the freshness evaluation *)
(* ================================================================== *)


Lemma scan_hasLatest thr entries acc :
  (foldl (scan_game thr) acc entries).1 = true ↔
  acc.1 = true ∨
  ∃ g first rest, (g, first :: rest) ∈ entries ∧ thr ≤ Draw.date first.
Proof.
  revert acc. induction entries as [|[g l] entries IH]; intros acc; simpl.
  - split; [by left|]. intros [?|(?&?&?&[]%elem_of_nil&_)]. done.
  - rewrite IH. unfold scan_game at 1. simpl. destruct l as [|first rest]; simpl.
    + split; (intros [?|(g'&f&r&Hin&?)]; [by left|right]); exists g', f, r.
      * split; [by right|done].
      * apply elem_of_cons in Hin as [[=]|Hin]. by split.
    + rewrite orb_true_iff, Z.leb_le. split.
      * intros [[?|?]|(g'&f&r&Hin&?)]; [by left|right..].
        -- exists g, first, rest. split; [left|done].
        -- exists g', f, r. split; [by right|done].
      * intros [?|(g'&f&r&Hin&?)]; [by left; left|].
        apply elem_of_cons in Hin as [[= -> -> ->]|Hin]; [by left; right|].
        right. by exists g', f, r.
Qed.

Lemma scan_latest thr entries acc :
  match (foldl (scan_game thr) acc entries).2 with
  | None => acc.2 = None ∧ ∀ g l, (g, l) ∈ entries → l = []
  | Some d =>
      (acc.2 = Some d ∨
       ∃ g first rest, (g, first :: rest) ∈ entries ∧ Draw.date first = d) ∧
      (∀ d0, acc.2 = Some d0 → d0 ≤ d) ∧
      (∀ g first rest, (g, first :: rest) ∈ entries → Draw.date first ≤ d)
  end.
Proof.
  revert acc. induction entries as [|[g l] entries IH]; intros acc; simpl.
  - destruct (acc.2) as [d|] eqn:E.
    + split; [by left|]. split; [by intros ? [= ->]|].
      by intros ??? ?%elem_of_nil.
    + split; [done|]. by intros ?? ?%elem_of_nil.
  - specialize (IH (scan_game thr acc (g, l))).
    destruct ((foldl (scan_game thr) (scan_game thr acc (g, l)) entries).2)
      as [d|]; unfold scan_game in IH; simpl in IH;
      destruct l as [|first rest]; simpl in IH.
    + destruct IH as (Hsrc & Hacc & Hall). split; [|split; [done|]].
      * destruct Hsrc as [?|(g'&f&r&?&?)]; [by left|right].
        exists g', f, r. split; [by right|done].
      * intros g' f r [[=]|Hin]%elem_of_cons. by eapply Hall.
    + destruct IH as (Hsrc & Hacc & Hall).
      assert (Draw.date first ≤ d ∧ ∀ d0, acc.2 = Some d0 → d0 ≤ d) as [Hf Ha].
      { destruct (acc.2) as [latest|].
        - destruct (Z.ltb_spec latest (Draw.date first)).
          + specialize (Hacc _ eq_refl). split; [done|].
            intros ? [= <-]. lia.
          + specialize (Hacc _ eq_refl). split; [lia|]. by intros ? [= <-].
        - specialize (Hacc _ eq_refl). split; [done|]. by intros ? [=]. }
      split; [|split; [done|]].
      * destruct Hsrc as [Hsrc|(g'&f&r&?&?)].
        -- destruct (acc.2) as [latest|].
           ++ destruct (Z.ltb_spec latest (Draw.date first));
                injection Hsrc as <-; [right|by left].
              exists g, first, rest. split; [left|done].
           ++ injection Hsrc as <-. right.
              exists g, first, rest. split; [left|done].
        -- right. exists g', f, r. split; [by right|done].
      * intros g' f r [[= -> -> ->]|Hin]%elem_of_cons; [done|].
        by eapply Hall.
    + destruct IH as [Hacc Hall]. split; [done|].
      intros g' l' [[= -> ->]|Hin]%elem_of_cons; [done|]. by eapply Hall.
    + destruct IH as [Hacc _]. by destruct (acc.2); [case_match|].
Qed.

Lemma count_lengths_zero (ls : list (list Draw.t)) a :
  foldl (fun acc curr => (acc + length curr)%nat) a ls = 0%nat ↔
  a = 0%nat ∧ ∀ l, l ∈ ls → l = [].
Proof.
  revert a. induction ls as [|l ls IH]; intros a; simpl.
  - split; [|tauto]. intros ->. split; [done|]. by intros ? ?%elem_of_nil.
  - rewrite IH. split.
    + intros [Ha Hall]. split; [lia|].
      intros l' [->|Hin]%elem_of_cons; [|by apply Hall].
      destruct l; [done|simpl in Ha; lia].
    + intros [-> Hall]. rewrite (Hall l) by left. split; [done|].
      intros l' Hin. apply Hall. by right.
Qed.

Lemma dataCount_zero data :
  dataCount data = 0%nat ↔ ∀ g l, data !! g = Some l → l = [].
Proof.
  unfold dataCount. rewrite count_lengths_zero. split.
  - intros [_ Hall] g l Hg. apply Hall.
    apply list_elem_of_fmap. exists (g, l). split; [done|].
    by apply elem_of_map_to_list.
  - intros Hall. split; [done|].
    intros l ([g l'] & -> & Hin)%list_elem_of_fmap.
    apply elem_of_map_to_list in Hin. by eapply Hall.
Qed.

Section FreshnessFacts.

Variable getDate : Z → Z.
Variable setDate : Z → Z → Z.

Local Abbreviation threeDaysAgo := (App.threeDaysAgo getDate setDate).
Local Abbreviation checkSystemStatus :=
  (App.checkSystemStatus getDate setDate).





End FreshnessFacts.

(* ================================================================== *)
(** * Properties of the next draw date *)
(* ================================================================== *)

Lemma getDay_range day : 0 ≤ getDay day ≤ 6.
Proof. unfold getDay. pose proof (Z.mod_pos_bound (day + 4) 7). lia. Qed.

(** Moving from [today] to weekday [w] of the same week. *)
Lemma getDay_same_week today w :
  0 ≤ w ≤ 6 → getDay (today + (w - getDay today)) = w.
Proof.
  intros Hw. unfold getDay.
  replace (today + (w - (today + 4) mod 7) + 4)
    with (w + ((today + 4) - (today + 4) mod 7)) by lia.
  rewrite (Z.div_mod (today + 4) 7) at 1 by lia.
  replace (w + (7 * ((today + 4) / 7) + (today + 4) mod 7 - (today + 4) mod 7))
    with (w + ((today + 4) / 7) * 7) by lia.
  rewrite Z.mod_add by lia. apply Z.mod_small. lia.
Qed.

(** Moving from [today] to weekday [w] of the next week. *)
Lemma getDay_next_week today w :
  0 ≤ w ≤ 6 → getDay (today + ((7 - getDay today) + w)) = w.
Proof.
  intros Hw. unfold getDay.
  replace (today + (7 - (today + 4) mod 7 + w) + 4)
    with (w + ((today + 4) - (today + 4) mod 7) + 1 * 7) by lia.
  rewrite Z.mod_add by lia.
  rewrite (Z.div_mod (today + 4) 7) at 1 by lia.
  replace (w + (7 * ((today + 4) / 7) + (today + 4) mod 7 - (today + 4) mod 7))
    with (w + ((today + 4) / 7) * 7) by lia.
  rewrite Z.mod_add by lia. apply Z.mod_small. lia.
Qed.

(** [find] returns the first element above [cur]. *)
Lemma find_first_above cur before next after :
  (∀ d, d ∈ before → d ≤ cur) → cur < next →
  List.find (fun d => cur <? d) (before ++ next :: after) = Some next.
Proof.
  intros Hbefore Hlt. induction before as [|a before IH]; simpl.
  - by destruct (Z.ltb_spec cur next); [|lia].
  - destruct (Z.ltb_spec cur a) as [Ha|Ha].
    + specialize (Hbefore a ltac:(left)). lia.
    + apply IH. intros d Hd. apply Hbefore. by right.
Qed.

Lemma find_none_above cur days :
  (∀ d, d ∈ days → d ≤ cur) → List.find (fun d => cur <? d) days = None.
Proof.
  induction days as [|a rest IH]; intros Hall; [done|]. simpl.
  destruct (Z.ltb_spec cur a) as [Ha|Ha].
  - specialize (Hall a ltac:(left)). lia.
  - apply IH. intros d Hd. apply Hall. by right.
Qed.

(** On an ascending list the first element above [cur] is the least. *)
Lemma first_above_least cur before next after d :
  StronglySorted Z.lt (before ++ next :: after) →
  (∀ d, d ∈ before → d ≤ cur) →
  d ∈ before ++ next :: after → cur < d → next ≤ d.
Proof.
  intros Hs Hbefore Hd Hlt.
  apply StronglySorted_app in Hs as (_ & _ & Hs).
  apply StronglySorted_inv in Hs as [_ Hafter].
  rewrite Forall_forall in Hafter.
  apply elem_of_app in Hd as [Hd|Hd].
  - specialize (Hbefore d Hd). lia.
  - apply elem_of_cons in Hd as [->|Hd]; [lia|].
    specialize (Hafter d Hd). lia.
Qed.

(** C8 (as amended).  Without draw days the result is the sentinel.
    Otherwise the selected draw day is the first listed weekday that is
    strictly greater than today's weekday, which on an ascending list is
    the least such weekday, and the result is its date in this week; when
    no listed weekday is greater, the result is the date of the first
    listed weekday in the next week.  A draw day equal to today's weekday
    is not selected for this week.  The label is the [weekMap] entry of the
    weekday of the resulting date, and that weekday is the selected draw
    day. *)
Theorem getNextDrawDate_spec today :
  getNextDrawDate None today = Unscheduled ∧
  getNextDrawDate (Some []) today = Unscheduled ∧
  ∀ first rest,
    (∀ before next after,
       first :: rest = before ++ next :: after →
       (∀ d, d ∈ before → d ≤ getDay today) →
       getDay today < next →
       getNextDrawDate (Some (first :: rest)) today
         = DrawOn (today + (next - getDay today))
                  (weekday_label (getDay (today + (next - getDay today)))) ∧
       (0 ≤ next ≤ 6 → getDay (today + (next - getDay today)) = next) ∧
       (StronglySorted Z.lt (first :: rest) →
        ∀ d, d ∈ first :: rest → getDay today < d → next ≤ d)) ∧
    ((∀ d, d ∈ first :: rest → d ≤ getDay today) →
     getNextDrawDate (Some (first :: rest)) today
       = DrawOn (today + (7 - getDay today + first))
                (weekday_label (getDay (today + (7 - getDay today + first)))) ∧
     (0 ≤ first ≤ 6 → getDay (today + (7 - getDay today + first)) = first)).
Proof.
  split; [done|]. split; [done|].
  intros first rest. split.
  - intros before next after Hdays Hbefore Hlt. split; [|split].
    + unfold getNextDrawDate. cbv zeta.
      by rewrite Hdays, (find_first_above _ _ _ _ Hbefore Hlt).
    + apply getDay_same_week.
    + rewrite Hdays. intros Hs d Hd Hd'.
      by apply (first_above_least (getDay today) before next after).
  - intros Hall. split.
    + unfold getNextDrawDate. cbv zeta. by rewrite (find_none_above _ _ Hall).
    + apply getDay_next_week.
Qed.

(** 大樂透 on a Tuesday: the Friday of the same week. *)
Lemma getNextDrawDate_spec_witness :
  getNextDrawDate (Some [2; 5]) tuesday = DrawOn (tuesday + 3) "五".
Proof.
  destruct (getNextDrawDate_spec tuesday) as (_ & _ & Hdays).
  destruct (Hdays 2 [5]) as [Hnext _].
  destruct (Hnext [2] 5 []) as [Hresult _].
  - reflexivity.
  - intros d Hd. apply list_elem_of_singleton in Hd as ->. vm_compute.
    discriminate.
  - vm_compute. reflexivity.
  - exact Hresult.
Defined.

(** C8 (counterexample).  大樂透 draws on Tuesdays and Fridays; on a
    Tuesday the computed date is the Friday, three days later, not the
    Tuesday itself. *)
Lemma getNextDrawDate_skips_today :
  getDay tuesday = 2 ∧
  2 ∈ [2; 5] ∧
  getNextDrawDate (Some [2; 5]) tuesday = DrawOn (tuesday + 3) "五" ∧
  getNextDrawDate (Some [2; 5]) tuesday ≠ DrawOn tuesday "二".
Proof.
  split; [reflexivity|]. split; [left|].
  split; [vm_compute; reflexivity|]. vm_compute. discriminate.
Qed.

(* ================================================================== *)
(** * Properties of the pack expansion *)
(* ================================================================== *)

Section Combinations.

Context {A : Type}.
Implicit Types (pool t : list A) (k : nat).

Lemma combinations_short k pool :
  (length pool < k)%nat → combinations k pool = [].
Proof.
  revert k. induction pool as [|x rest IH]; intros [|k] Hlen;
    simpl in *; try lia; [done|].
  rewrite (IH k), (IH (S k)) by lia. done.
Qed.

Lemma combinations_exact pool :
  combinations (length pool) pool = [pool].
Proof.
  induction pool as [|x rest IH]; [done|]. simpl.
  rewrite IH, combinations_short by lia. done.
Qed.

Lemma elem_of_combinations k pool t :
  t ∈ combinations k pool ↔ t `sublist_of` pool ∧ length t = k.
Proof.
  revert k t. induction pool as [|x rest IH]; intros k t.
  - destruct k; simpl.
    + rewrite list_elem_of_singleton, sublist_nil_r.
      split; [by intros ->|]. by intros [-> _].
    + rewrite elem_of_nil, sublist_nil_r. split; [done|].
      by intros [-> ?].
  - destruct k; simpl.
    + rewrite list_elem_of_singleton. split.
      * intros ->. split; [apply sublist_nil_l|done].
      * intros [_ Hlen]. by destruct t.
    + rewrite elem_of_app, list_elem_of_fmap, sublist_cons_r. split.
      * intros [(t' & -> & Ht')|Ht].
        -- apply IH in Ht' as [Hsub <-]. split; [|done].
           right. by exists t'.
        -- apply IH in Ht as [Hsub Hlen]. split; [by left|done].
      * intros [[Hsub|(t' & -> & Hsub)] Hlen].
        -- right. by apply IH.
        -- left. exists t'. split; [done|]. apply IH.
           split; [done|]. simpl in Hlen. lia.
Qed.

End Combinations.

(** C9.  The expansion is a function of the pool and the game; its
    tickets are exactly the sub-sequences of the pool that have [count]
    numbers.  A pool with fewer than [count] candidates gives the empty
    sequence, and the click handler then returns without touching the page;
    a pool of exactly [count] candidates gives the one ticket that is the
    pool. *)
Theorem expandPack_spec numbers gameDef :
  (∀ ticket,
     ticket ∈ expandPack numbers gameDef ↔
     ticket_numbers ticket `sublist_of` numbers ∧
     length (ticket_numbers ticket) = Z.to_nat (count gameDef)) ∧
  (Z.of_nat (length numbers) < count gameDef →
   expandPack numbers gameDef = [] ∧
   handleCandidateClick true numbers gameDef = None) ∧
  (Z.of_nat (length numbers) = count gameDef →
   expandPack numbers gameDef = [ {| ticket_numbers := numbers |} ]).
Proof.
  unfold handleCandidateClick, expandPack. split; [|split].
  - intros [t]. simpl. rewrite list_elem_of_fmap. split.
    + intros (t' & [= ->] & Ht). by apply elem_of_combinations.
    + intros Ht. exists t. split; [done|]. by apply elem_of_combinations.
  - intros Hlen. rewrite combinations_short by lia. done.
  - intros Hlen. rewrite <- Hlen, Nat2Z.id, combinations_exact. done.
Qed.

(** Five candidates for a five-number game, and four of them. *)
Lemma expandPack_spec_witness :
  expandPack five_candidates game_539
    = [ {| ticket_numbers := five_candidates |} ] ∧
  expandPack (take 4 five_candidates) game_539 = [].
Proof.
  destruct (expandPack_spec five_candidates game_539) as (_ & _ & Hexact).
  destruct (expandPack_spec (take 4 five_candidates) game_539)
    as (_ & Hshort & _).
  split.
  - apply Hexact. reflexivity.
  - apply Hshort. reflexivity.
Defined.

(* ================================================================== *)
(** * Properties of the two merge passes *)
(* ================================================================== *)

Lemma insert_newest_Permutation r l : insert_newest r l ≡ₚ r :: l.
Proof.
  induction l as [|x l IH]; simpl; [done|].
  destruct (Raw.date r <? Raw.date x); [|done].
  rewrite IH. apply Permutation_swap.
Qed.

Lemma sort_newest_first_Permutation l : sort_newest_first l ≡ₚ l.
Proof.
  induction l as [|x l IH]; simpl; [done|].
  by rewrite insert_newest_Permutation, IH.
Qed.

Lemma records_of_sorted_live liveData game :
  records_of (sorted_live liveData) game
    = sort_newest_first (records_of liveData game).
Proof.
  unfold records_of, sorted_live. rewrite lookup_fmap.
  by destruct (liveData !! game).
Qed.

Lemma records_of_empty game : records_of ∅ game = [].
Proof. unfold records_of. by rewrite lookup_empty. Qed.

Lemma add_batch_cons r rs acc :
  add_batch (r :: rs) acc = add_batch rs (<[Raw.period r := r]> acc).
Proof. done. Qed.

Lemma add_batch_preserves rs acc p :
  is_Some (acc !! p) → is_Some (add_batch rs acc !! p).
Proof.
  revert acc. induction rs as [|r rs IH]; intros acc H; [done|].
  rewrite add_batch_cons. apply IH. rewrite lookup_insert.
  case_decide; [by eexists|done].
Qed.

Lemma add_batch_member rs acc r :
  r ∈ rs → is_Some (add_batch rs acc !! Raw.period r).
Proof.
  revert acc. induction rs as [|r0 rs IH]; intros acc Hin.
  { by apply elem_of_nil in Hin. }
  rewrite add_batch_cons. apply elem_of_cons in Hin as [->|Hin].
  - apply add_batch_preserves. rewrite lookup_insert_eq. by eexists.
  - by apply IH.
Qed.

Lemma add_batch_source rs acc p r :
  add_batch rs acc !! p = Some r →
  acc !! p = Some r ∨ (r ∈ rs ∧ Raw.period r = p).
Proof.
  revert acc. induction rs as [|r0 rs IH]; intros acc H; [by left|].
  rewrite add_batch_cons in H. apply IH in H as [H|[Hin Hp]].
  - rewrite lookup_insert in H. case_decide as Hd.
    + injection H as <-. right. split; [left|done].
    + by left.
  - right. split; [by right|done].
Qed.

Lemma add_batch_absent rs acc p :
  p ∉ Raw.period <$> rs → add_batch rs acc !! p = acc !! p.
Proof.
  revert acc. induction rs as [|r0 rs IH]; intros acc Hp; [done|].
  rewrite add_batch_cons, IH.
  - apply lookup_insert_ne. intros Heq. apply Hp. rewrite fmap_cons, Heq. left.
  - intros Hin. apply Hp. rewrite fmap_cons. by right.
Qed.

Lemma add_batch_last rs acc r :
  NoDup (Raw.period <$> rs) → r ∈ rs →
  add_batch rs acc !! Raw.period r = Some r.
Proof.
  revert acc. induction rs as [|r0 rs IH]; intros acc Hnd Hin.
  { by apply elem_of_nil in Hin. }
  rewrite fmap_cons in Hnd. apply NoDup_cons in Hnd as [Hfresh Hnd].
  rewrite add_batch_cons. apply elem_of_cons in Hin as [->|Hin].
  - rewrite add_batch_absent by done. apply lookup_insert_eq.
  - by apply IH.
Qed.

Lemma merge_from_preserves sources acc p :
  is_Some (acc !! p) → is_Some (merge_from acc sources !! p).
Proof.
  revert acc. induction sources as [|rs sources IH]; intros acc H; [done|].
  simpl. by apply IH, add_batch_preserves.
Qed.

Lemma merge_from_member sources acc rs r :
  rs ∈ sources → r ∈ rs → is_Some (merge_from acc sources !! Raw.period r).
Proof.
  revert acc. induction sources as [|rs0 sources IH]; intros acc Hrs Hr.
  { by apply elem_of_nil in Hrs. }
  simpl. apply elem_of_cons in Hrs as [->|Hrs].
  - by apply merge_from_preserves, add_batch_member.
  - by apply IH.
Qed.

Lemma merge_from_source sources acc p r :
  merge_from acc sources !! p = Some r →
  acc !! p = Some r ∨ ∃ rs, rs ∈ sources ∧ r ∈ rs ∧ Raw.period r = p.
Proof.
  revert acc. induction sources as [|rs0 sources IH]; intros acc H; [by left|].
  simpl in H. apply IH in H as [H|(rs & Hrs & Hr & Hp)].
  - apply add_batch_source in H as [H|[Hr Hp]]; [by left|].
    right. exists rs0. split; [left|done].
  - right. exists rs. split; [by right|done].
Qed.

Lemma merge_index_key sources p r :
  merge_index sources !! p = Some r → Raw.period r = p.
Proof.
  intros [H|(rs & _ & _ & Hp)]%merge_from_source; [|done].
  by rewrite lookup_empty in H.
Qed.

Lemma elem_of_merge_game sources r :
  r ∈ merge_game sources ↔ merge_index sources !! Raw.period r = Some r.
Proof.
  unfold merge_game. rewrite merge_sort_Permutation, list_elem_of_fmap. split.
  - intros ([p r'] & -> & Hin). simpl. apply elem_of_map_to_list in Hin.
    by rewrite (merge_index_key _ _ _ Hin).
  - intros H. exists (Raw.period r, r). split; [done|].
    by apply elem_of_map_to_list.
Qed.

Lemma periods_merge_game sources p :
  p ∈ Raw.period <$> merge_game sources ↔ is_Some (merge_index sources !! p).
Proof.
  rewrite list_elem_of_fmap. split.
  - intros (r & -> & Hr). apply elem_of_merge_game in Hr. by eexists.
  - intros [r Hr]. exists r. pose proof (merge_index_key _ _ _ Hr) as <-.
    split; [done|]. by apply elem_of_merge_game.
Qed.

Lemma merge_game_empty sources :
  (∀ rs, rs ∈ sources → rs = []) → merge_game sources = [].
Proof.
  intros Hall. destruct (merge_game sources) as [|r l] eqn:E; [done|].
  assert (r ∈ merge_game sources) as Hr by (rewrite E; left).
  apply elem_of_merge_game, merge_from_source in Hr
    as [Hr|(rs & Hrs & Hin & _)].
  - by rewrite lookup_empty in Hr.
  - rewrite (Hall _ Hrs) in Hin. by apply elem_of_nil in Hin.
Qed.

Lemma add_batch_overrides rs acc p r :
  p ∈ Raw.period <$> rs → add_batch rs acc !! p = Some r →
  r ∈ rs ∧ Raw.period r = p.
Proof.
  revert acc. induction rs as [|r0 rs IH]; intros acc Hp H.
  { by apply elem_of_nil in Hp. }
  rewrite add_batch_cons in H.
  destruct (decide (p ∈ Raw.period <$> rs)) as [Hin|Hout].
  - destruct (IH _ Hin H) as [Hr Hper]. split; [by right|done].
  - rewrite add_batch_absent in H by done.
    rewrite fmap_cons in Hp. apply elem_of_cons in Hp as [->|Hp]; [|done].
    rewrite lookup_insert_eq in H. injection H as <-. split; [left|done].
Qed.

(** A record of the index comes from the last source that has its
    period. *)
Lemma merge_from_origin sources acc p r :
  merge_from acc sources !! p = Some r →
  (acc !! p = Some r ∧ ∀ rs, rs ∈ sources → p ∉ Raw.period <$> rs) ∨
  ∃ lower rs higher,
    sources = lower ++ rs :: higher ∧ r ∈ rs ∧ Raw.period r = p ∧
    ∀ rs', rs' ∈ higher → p ∉ Raw.period <$> rs'.
Proof.
  induction sources as [|rs sources IH] using rev_ind; intros H.
  { left. split; [done|]. by intros rs ?%elem_of_nil. }
  unfold merge_from in H. rewrite foldl_app in H. simpl in H.
  destruct (decide (p ∈ Raw.period <$> rs)) as [Hin|Hout].
  - destruct (add_batch_overrides _ _ _ _ Hin H) as [Hr Hper].
    right. exists sources, rs, []. repeat split; try done.
    by intros rs' ?%elem_of_nil.
  - rewrite add_batch_absent in H by done.
    destruct (IH H) as [[Hacc Hnone]|(lower & rs0 & higher & -> & Hr & Hper & Hhigh)].
    + left. split; [done|]. intros rs' [Hrs'|Hrs']%elem_of_app.
      * by apply Hnone.
      * by apply list_elem_of_singleton in Hrs' as ->.
    + right. exists lower, rs0, (higher ++ [rs]).
      split; [by rewrite <- app_assoc|]. repeat split; try done.
      intros rs' [Hrs'|Hrs']%elem_of_app; [by apply Hhigh|].
      by apply list_elem_of_singleton in Hrs' as ->.
Qed.

Lemma merge_game_NoDup sources : NoDup (Raw.period <$> merge_game sources).
Proof.
  unfold merge_game. rewrite merge_sort_Permutation.
  assert (Raw.period <$> (map_to_list (merge_index sources)).*2
          = (map_to_list (merge_index sources)).*1) as ->.
  { rewrite <- list_fmap_compose. apply list_fmap_ext.
    intros i [p r] Hin%list_elem_of_lookup_2%elem_of_map_to_list. simpl.
    by apply merge_index_key in Hin. }
  apply NoDup_fst_map_to_list.
Qed.

Local Instance newer_first_total : Total newer_first.
Proof. intros x y. unfold newer_first. lia. Qed.

Local Instance newer_first_transitive : Transitive newer_first.
Proof. intros x y z. unfold newer_first. lia. Qed.

Lemma merge_game_sorted sources :
  StronglySorted newer_first (merge_game sources).
Proof. apply StronglySorted_merge_sort; apply _. Qed.

(** The timeline of one game in the merged result. *)
Lemma mergeLotteryData_timeline baseline archives cache live game :
  records_of (mergeLotteryData baseline archives cache live) game
    = merge_game ((fun batch => records_of batch game)
                    <$> baseline :: archives ++ [cache; default ∅ live]).
Proof.
  unfold mergeLotteryData, records_of at 1.
  rewrite map_lookup_imap.
  set (sources := baseline :: archives ++ [cache; default ∅ live]).
  destruct (decide (game ∈ ⋃ (dom <$> sources))) as [Hin|Hout].
  - by rewrite (proj2 (lookup_gset_to_gmap_Some _ _ _ _) (conj Hin eq_refl)).
  - rewrite (proj2 (lookup_gset_to_gmap_None _ _ _) Hout). simpl.
    symmetry. apply merge_game_empty.
    intros rs Hrs.
    change (rs ∈ (fun batch => records_of batch game) <$> sources) in Hrs.
    apply list_elem_of_fmap in Hrs as (batch & -> & Hbatch).
    unfold records_of. destruct (batch !! game) as [l|] eqn:E; [|done].
    destruct Hout. apply elem_of_union_list. exists (dom batch).
    split; [by apply list_elem_of_fmap_2|]. apply elem_of_dom. by eexists.
Qed.

(** C7 (as amended).  The refresh pass merges the baseline and the archive
    batches with the live batch, which takes the place of the local cache.
    Every period that the baseline, an archive batch or the live batch has
    for a game is in the refresh timeline of that game, once, and the
    timeline is ordered newest first.  The record under a period that the
    live batch has is a live record: it replaces every baseline and
    archive record of that period; a live record (of a batch with distinct
    periods) is in the timeline as it stands.  Any other record comes from
    the last of the baseline and the archive batches that has its period.
    A period of the initial timeline is in the refresh timeline unless
    only the local cache had it. *)
Theorem refresh_pass_spec baseData zipResults localCache liveData game :
  let initial := records_of (initial_pass baseData zipResults localCache) game in
  let refresh := records_of (refresh_pass baseData zipResults liveData) game in
  (∀ source p,
     source ∈ baseData :: zipResults ++ [liveData] →
     p ∈ Raw.period <$> records_of source game →
     p ∈ Raw.period <$> refresh) ∧
  NoDup (Raw.period <$> refresh) ∧
  StronglySorted newer_first refresh ∧
  (∀ r,
     r ∈ refresh →
     Raw.period r ∈ Raw.period <$> records_of liveData game →
     r ∈ records_of liveData game) ∧
  (∀ r,
     NoDup (Raw.period <$> records_of liveData game) →
     r ∈ records_of liveData game →
     r ∈ refresh) ∧
  (∀ r,
     r ∈ refresh →
     Raw.period r ∉ Raw.period <$> records_of liveData game →
     ∃ lower source higher,
       baseData :: zipResults = lower ++ source :: higher ∧
       r ∈ records_of source game ∧
       ∀ later, later ∈ higher →
                Raw.period r ∉ Raw.period <$> records_of later game) ∧
  (∀ p,
     p ∈ Raw.period <$> initial →
     p ∈ Raw.period <$> refresh ∨
     (p ∈ Raw.period <$> records_of localCache game ∧
      ∀ source, source ∈ baseData :: zipResults ++ [liveData] →
                p ∉ Raw.period <$> records_of source game)).
Proof.
  intros initial refresh.
  assert (refresh = merge_game
            ((fun batch => records_of batch game)
               <$> baseData :: zipResults ++ [sorted_live liveData; ∅]))
    as Hrefresh by apply mergeLotteryData_timeline.
  assert (initial = merge_game
            ((fun batch => records_of batch game)
               <$> baseData :: zipResults ++ [localCache; ∅]))
    as Hinitial by apply mergeLotteryData_timeline.
  assert (∀ source p,
            source ∈ baseData :: zipResults ++ [liveData] →
            p ∈ Raw.period <$> records_of source game →
            p ∈ Raw.period <$> refresh) as Hpresent.
  { intros source p Hsource (r & -> & Hr)%list_elem_of_fmap.
    rewrite Hrefresh. apply periods_merge_game.
    rewrite app_comm_cons, elem_of_app, list_elem_of_singleton in Hsource.
    destruct Hsource as [Hlow| ->].
    - apply (merge_from_member _ _ (records_of source game)); [|done].
      apply (list_elem_of_fmap_2 (fun batch => records_of batch game)).
      rewrite app_comm_cons, elem_of_app. by left.
    - apply (merge_from_member _ _ (records_of (sorted_live liveData) game)).
      + apply (list_elem_of_fmap_2 (fun batch => records_of batch game)).
        rewrite app_comm_cons, elem_of_app. right. left.
      + rewrite records_of_sorted_live. by apply elem_of_sort_newest_first. }
  assert (∀ r, r ∈ refresh ↔
               add_batch (sort_newest_first (records_of liveData game))
                 (merge_index ((fun batch => records_of batch game)
                                 <$> baseData :: zipResults))
                 !! Raw.period r = Some r) as Hindex.
  { intros r. rewrite Hrefresh, elem_of_merge_game.
    unfold merge_index. rewrite app_comm_cons, fmap_app, foldl_app. simpl.
    by rewrite records_of_empty, records_of_sorted_live. }
  assert (∀ p, p ∈ Raw.period <$> sort_newest_first (records_of liveData game)
               ↔ p ∈ Raw.period <$> records_of liveData game) as Hperiods.
  { intros p. by rewrite sort_newest_first_Permutation. }
  split; [done|]. split; [rewrite Hrefresh; apply merge_game_NoDup|].
  split; [rewrite Hrefresh; apply merge_game_sorted|].
  split; [|split; [|split]].
  - intros r Hr Hlive. apply Hindex in Hr. apply Hperiods in Hlive.
    destruct (add_batch_overrides _ _ _ _ Hlive Hr) as [Hin _].
    by rewrite elem_of_sort_newest_first in Hin.
  - intros r Hnd Hr. apply Hindex. apply add_batch_last.
    + by rewrite sort_newest_first_Permutation.
    + by apply elem_of_sort_newest_first.
  - intros r Hr Hnot. apply Hindex in Hr.
    rewrite add_batch_absent in Hr by (by rewrite Hperiods).
    apply merge_from_origin in Hr
      as [[Hr _]|(lower & rs & higher & Heq & Hin & _ & Hhigh)].
    { by rewrite lookup_empty in Hr. }
    apply fmap_app_inv in Heq as (lower' & rest & -> & Hrest & Heq).
    symmetry in Hrest.
    apply fmap_cons_inv in Hrest as (source & higher' & -> & -> & ->).
    exists lower', source, higher'. split; [done|]. split; [done|].
    intros later Hlater. apply Hhigh.
    by apply (list_elem_of_fmap_2 (fun batch => records_of batch game)).
  - intros p Hp. rewrite Hinitial in Hp.
    apply periods_merge_game in Hp as [r Hr].
    destruct (decide (Exists (fun source =>
                p ∈ Raw.period <$> records_of source game)
                (baseData :: zipResults ++ [liveData]))) as [Hex|Hnone].
    { left. apply Exists_exists in Hex as (source & Hsource & Hin).
      by apply (Hpresent source). }
    right.
    assert (∀ source, source ∈ baseData :: zipResults ++ [liveData] →
              p ∉ Raw.period <$> records_of source game) as Hnot.
    { intros source Hsource Hin. apply Hnone, Exists_exists. by exists source. }
    split; [|done].
    apply merge_from_source in Hr as [Hr|(rs & Hrs & Hin & Hper)].
    { by rewrite lookup_empty in Hr. }
    apply list_elem_of_fmap in Hrs as (source & -> & Hsource).
    rewrite app_comm_cons, elem_of_app in Hsource.
    destruct Hsource as [Hlow|Hhigh].
    + destruct (Hnot source).
      * rewrite app_comm_cons, elem_of_app. by left.
      * apply list_elem_of_fmap. by exists r.
    + apply elem_of_cons in Hhigh as [->|Hhigh].
      * apply list_elem_of_fmap. by exists r.
      * apply list_elem_of_singleton in Hhigh as ->.
        rewrite records_of_empty in Hin. by apply elem_of_nil in Hin.
Qed.

(** Period 100 of the baseline is in the refresh timeline. *)
Lemma refresh_pass_spec_witness :
  100 ∈ Raw.period <$>
    records_of (refresh_pass baseline_100 [] live_zero_500_zero) "大樂透".
Proof.
  destruct (refresh_pass_spec baseline_100 [] cache_only_90
              live_zero_500_zero "大樂透") as (Hpresent & _ & _).
  apply (Hpresent baseline_100); vm_compute; left.
Defined.

(** C7 (counterexample).  Period 90 comes from the local cache alone: it
    is in the timeline of the initial pass and not in the timeline of the
    refresh pass. *)
Lemma refresh_pass_drops_cache_only :
  Raw.period <$>
    records_of (initial_pass ∅ [] cache_only_90) "大樂透" = [90] ∧
  Raw.period <$>
    records_of (refresh_pass ∅ [] live_zero_500_zero) "大樂透"
    = [103; 102; 101].
Proof. split; vm_compute; reflexivity. Qed.



(* ================================================================== *)
(** * The freshness evaluation of the merged timelines *)
(* ================================================================== *)



(** The same evaluation when the newest record is four days old. *)
Lemma checkSystemStatus_four_days :
  checkSystemStatus_utc (jan 10) data_four_days
    = StatusError (LocaleDate (jan 6)).
Proof. vm_compute. reflexivity. Qed.

(* ================================================================== *)
(** * Further properties of the dispatcher *)
(* ================================================================== *)

Section DispatcherGuards.

Variable ToString : value → string.
Variable timestamp : string.
Variable production : bool.
Variables algoBalance algoStat algoPattern algoAI : Params → outcome.

Local Abbreviation dispatch := (Api.dispatch ToString production).
Local Abbreviation strategy :=
  (Api.strategy algoBalance algoStat algoPattern algoAI).
Local Abbreviation predict :=
  (Api.predict ToString timestamp production
               algoBalance algoStat algoPattern algoAI).
Local Abbreviation shape := (Api.shape timestamp production).

Lemma school_of_name s : school_of (VStr (school_name s)) = Some s.
Proof. by destruct s. Qed.

Lemma dispatch_reaches body s m def :
  truthy (prop body "game") = true →
  games_get (to_property_key ToString (prop body "game")) = Some def →
  prop body "mode" = VStr m → m ≠ "" →
  prop body "school" = VStr (school_name s) →
  ∃ p, dispatch body = inr (s, p) ∧ gameDef p = def.
Proof.
  intros Hg Hdef Hm Hne Hs. unfold Api.dispatch.
  assert (truthy (prop body "school") = true) as Hts
    by (rewrite Hs; by destruct s).
  assert (truthy (prop body "mode") = true) as Htm.
  { rewrite Hm. simpl. by destruct (String.eqb_spec m ""). }
  rewrite Hg, Hts, Htm. simpl. rewrite Hdef, Hm. simpl.
  rewrite Hs, school_of_name. by eexists.
Qed.

(** X1.  A strategy is called exactly when [game] is truthy and resolves
    in the registry lookup, [mode] is a non-empty string and [school] is
    the very name of that strategy. *)
Theorem predict_invokes_iff body s :
  invoked (predict body) = Some s ↔
  truthy (prop body "game") = true ∧
  is_Some (games_get (to_property_key ToString (prop body "game"))) ∧
  (∃ m, prop body "mode" = VStr m ∧ m ≠ "") ∧
  prop body "school" = VStr (school_name s).
Proof.
  split.
  - unfold Api.predict.
    destruct (dispatch body) as [early|[s' p]] eqn:Hd; simpl; [done|].
    intros [= ->].
    destruct (dispatch_inr _ _ _ _ _ Hd) as (Hg & _ & Hm & Hdef & Hs).
    repeat split; try done; by eexists.
  - intros (Hg & [def Hdef] & (m & Hm & Hne) & Hs).
    destruct (dispatch_reaches body s m def Hg Hdef Hm Hne Hs) as (p & Hd & _).
    by rewrite (predict_run _ _ _ _ _ _ _ _ _ _ Hd).
Qed.

Lemma dispatch_inl_status body early :
  dispatch body = inl early →
  (status early = 400 ∧
   (early = missing_parameters ∨ early = invalid_game (prop body "game") ∨
    early = unsupported_school (prop body "school"))) ∨
  early = caught production startsWith_error.
Proof.
  unfold Api.dispatch.
  destruct (negb _ || negb _ || negb _).
  { intros [= <-]. left. split; [done|]. by left. }
  destruct (games_get _).
  2:{ intros [= <-]. left. split; [done|]. right. by left. }
  destruct (startsWith_pack _); [|intros [= <-]; by right].
  destruct (school_of _); [done|].
  intros [= <-]. left. split; [done|]. right. by right.
Qed.

Lemma shape_status game school mode result :
  (status (shape game school mode result) = 200 ∧
   result ≠ VNull ∧ result ≠ VUndef) ∨
  (shape game school mode result = caught production (metadata_error result) ∧
   (result = VNull ∨ result = VUndef)).
Proof.
  destruct result; simpl; try (left; done); right; split; auto.
Qed.

End DispatcherGuards.

Section DispatcherMessages.

Variable ToString : value → string.
Variable timestamp : string.
Variables algoBalance algoStat algoPattern algoAI : Params → outcome.

(** X2.  In production every reply is of one of three kinds: a 400
    validation reply (missing parameter, unknown game or unsupported
    school), sent without any strategy having been called; the 500
    failure of the [catch] block, whose body is fixed whatever was
    thrown; or a 200 reply shaped from a value that the called strategy
    returned, which was neither [null] nor [undefined]. *)
Theorem predict_reply_kinds body :
  let run := Api.predict ToString timestamp true
               algoBalance algoStat algoPattern algoAI body in
  (status (reply run) = 400 ∧
   invoked run = None ∧
   (reply run = missing_parameters ∨
    reply run = invalid_game (prop body "game") ∨
    reply run = unsupported_school (prop body "school"))) ∨
  reply run = {| status := 500;
                 json := {[ "success" := VBool false;
                            "error" := VStr "預測執行失敗";
                            "message" := VStr "伺服器錯誤" ]} |} ∨
  (status (reply run) = 200 ∧
   ∃ s p result,
     invoked run = Some s ∧
     Api.dispatch ToString true body = inr (s, p) ∧
     Api.strategy algoBalance algoStat algoPattern algoAI s p
       = Returns result ∧
     result ≠ VNull ∧ result ≠ VUndef ∧
     reply run
       = Api.shape timestamp true (prop body "game") (prop body "school")
           (prop body "mode") result).
Proof.
  intros run. unfold run, Api.predict.
  destruct (Api.dispatch ToString true body) as [early|[s p]] eqn:Hd; simpl.
  - destruct (dispatch_inl_status _ _ _ _ Hd) as [[H4 Hk]| ->].
    + left. done.
    + right. by left.
  - destruct (Api.strategy algoBalance algoStat algoPattern algoAI s p)
      as [result|message] eqn:Hs.
    + destruct (shape_status timestamp true (prop body "game")
                  (prop body "school") (prop body "mode") result)
        as [(H2 & Hn & Hu)|[Hshape _]].
      * right. right. split; [done|]. by exists s, p, result.
      * right. left. by rewrite Hshape.
    + right. by left.
Qed.

(** X3.  In production a failure reply carries the fixed text and no
    detail: whatever the strategy throws and whatever the request is, a
    reply with status 500 has [success: false], the generic error and the
    message '伺服器錯誤', and nothing else. *)
Theorem predict_production_hides_detail body :
  status (reply (Api.predict ToString timestamp true
                   algoBalance algoStat algoPattern algoAI body)) = 500 →
  json (reply (Api.predict ToString timestamp true
                 algoBalance algoStat algoPattern algoAI body))
  = {[ "success" := VBool false;
       "error" := VStr "預測執行失敗";
       "message" := VStr "伺服器錯誤" ]}.
Proof.
  intros H500. unfold Api.predict in *.
  destruct (Api.dispatch ToString true body) as [early|[s p]] eqn:Hd;
    simpl in *.
  - destruct (dispatch_inl_status _ _ _ _ Hd) as [[H4 _]| ->];
      [congruence|done].
  - destruct (Api.strategy algoBalance algoStat algoPattern algoAI s p)
      as [result|message]; [|done].
    destruct (shape_status timestamp true (prop body "game")
                (prop body "school") (prop body "mode") result)
      as [(H2 & _)|[Hshape _]]; [congruence|].
    by rewrite Hshape.
Qed.

(** Outside production the failure reply repeats the message of the
    error that the strategy threw. *)
Lemma predict_development_shows_message body s p message :
  Api.dispatch ToString false body = inr (s, p) →
  Api.strategy algoBalance algoStat algoPattern algoAI s p = Throws message →
  reply (Api.predict ToString timestamp false
           algoBalance algoStat algoPattern algoAI body)
  = {| status := 500;
       json := {[ "success" := VBool false;
                  "error" := VStr "預測執行失敗";
                  "message" := VStr message ]} |}.
Proof.
  intros Hd Hs. rewrite (predict_run _ _ _ _ _ _ _ _ _ _ Hd). simpl.
  by rewrite Hs.
Qed.

End DispatcherMessages.

Section DispatcherParams.

Variable ToString : value → string.
Variable timestamp : string.
Variable production : bool.
Variables algoBalance algoStat algoPattern algoAI : Params → outcome.

Local Abbreviation dispatch := (Api.dispatch ToString production).
Local Abbreviation strategy :=
  (Api.strategy algoBalance algoStat algoPattern algoAI).
Local Abbreviation predict :=
  (Api.predict ToString timestamp production
               algoBalance algoStat algoPattern algoAI).

(** X4.  The bundle handed to a strategy: [targetCount] is 5; [data] and
    [excludeNumbers] are the request's values when truthy and the empty
    array otherwise, hence never falsy; [setIndex] is 0 when the request
    has none; [packMode] is [null] unless [mode] starts with 'pack', in
    which case it is [mode] itself; [random] is set only for the mode
    'random', so [random] and a pack mode never occur together. *)
Theorem dispatch_params body s p :
  dispatch body = inr (s, p) →
  targetCount p = 5 ∧
  mode p = prop body "mode" ∧
  truthy (data p) = true ∧
  truthy (excludeNumbers p) = true ∧
  (truthy (prop body "historyData") = true → data p = prop body "historyData") ∧
  (truthy (prop body "historyData") = false → data p = VArr []) ∧
  (body !! "setIndex" = None → setIndex p = num 0) ∧
  (∃ m, mode p = VStr m ∧
        random p = String.eqb m "random" ∧
        packMode p = (if String.prefix "pack" m then VStr m else VNull)) ∧
  (random p = true → packMode p = VNull).
Proof.
  unfold Api.dispatch.
  destruct (negb _ || negb _ || negb _); [done|].
  destruct (games_get _); [|done].
  destruct (prop body "mode") as [| |b|x|m|items|fields] eqn:Hm;
    simpl; try done.
  destruct (school_of _); [|done].
  intros [= <- <-]. simpl. unfold or_else.
  split; [done|]. split; [done|].
  split; [by destruct (truthy (prop body "historyData")) eqn:E|].
  split; [by destruct (truthy (prop body "excludeNumbers")) eqn:E|].
  split; [by intros ->|]. split; [by intros ->|].
  split; [by intros ->|].
  split; [by exists m|].
  destruct (String.eqb_spec m "random") as [->|]; [done|discriminate].
Qed.

(** X5.  In a single-selection response every top-level field of the
    strategy's object other than [metadata] is passed through unchanged;
    [success] is [true] unless the object has a [success] field of its
    own, which then takes its place. *)
Theorem predict_single_fields body s p fields :
  dispatch body = inr (s, p) →
  strategy s p = Returns (VObj fields) →
  (∀ k, k ≠ "metadata" → k ≠ "success" →
        json (reply (predict body)) !! k = fields !! k) ∧
  json (reply (predict body)) !! "success"
    = Some (default (VBool true) (fields !! "success")) ∧
  is_Some (json (reply (predict body)) !! "metadata").
Proof.
  intros Hd Hs. rewrite (predict_run _ _ _ _ _ _ _ _ _ _ Hd), Hs. simpl.
  split; [|split].
  - intros k Hk1 Hk2. rewrite lookup_insert_ne by done.
    rewrite lookup_union, lookup_singleton_ne by done.
    by destruct (fields !! k).
  - rewrite lookup_insert_ne by done.
    rewrite lookup_union, lookup_singleton_eq.
    by destruct (fields !! "success").
  - rewrite lookup_insert_eq. by eexists.
Qed.

(** X6.  A strategy that returns [null] or [undefined] is answered with
    the 500 failure (reading [metadata] of the result throws); one that
    returns a number or a boolean is answered 200 with [success] and
    [metadata] alone. *)
Theorem predict_degenerate_results body s p result :
  dispatch body = inr (s, p) →
  strategy s p = Returns result →
  ((result = VNull ∨ result = VUndef) →
   reply (predict body) = caught production (metadata_error result)) ∧
  ((∃ b, result = VBool b) ∨ (∃ x, result = VNum x) →
   status (reply (predict body)) = 200 ∧
   dom (json (reply (predict body))) = {[ "success"; "metadata" ]} ∧
   json (reply (predict body)) !! "success" = Some (VBool true)).
Proof.
  intros Hd Hs. rewrite (predict_run _ _ _ _ _ _ _ _ _ _ Hd), Hs. simpl.
  split.
  - by intros [-> | ->].
  - intros [[b ->]|[x ->]]; simpl; (split; [done|]);
      (split; [|by rewrite lookup_insert_ne, lookup_union_r]);
      rewrite dom_insert_L, dom_union_L, dom_empty_L, dom_singleton_L;
      set_solver.
Qed.

End DispatcherParams.

(* ================================================================== *)
(** * Further properties of the data path *)
(* ================================================================== *)

Section NormalisationShape.

Variable FRONT_GAMES : gmap string GameDefinition.
Variable StringToNumber : string → number.
Variable ObjectToNumber : value → number.

Local Abbreviation Number := (App.Number StringToNumber ObjectToNumber).
Local Abbreviation clean := (App.clean StringToNumber ObjectToNumber).
Local Abbreviation normalize :=
  (App.normalize FRONT_GAMES StringToNumber ObjectToNumber).
Local Abbreviation processAndRender :=
  (App.processAndRender FRONT_GAMES StringToNumber ObjectToNumber).

(** X7.  Normalisation keeps the games and, per game, the records: none
    is dropped, added or moved, and the period, the date and the jackpot
    of each record are untouched. *)
Theorem processAndRender_keeps_records merged :
  dom (processAndRender merged) = dom merged ∧
  ∀ game items,
    merged !! game = Some items →
    ∃ draws,
      processAndRender merged !! game = Some draws ∧
      length draws = length items ∧
      ∀ i item,
        items !! i = Some item →
        ∃ draw,
          draws !! i = Some draw ∧
          Draw.period draw = Raw.period item ∧
          Draw.date draw = Raw.date item ∧
          Draw.jackpot draw = Raw.jackpot item.
Proof.
  split.
  - apply set_eq. intros game. rewrite !elem_of_dom, processAndRender_lookup.
    by rewrite fmap_is_Some.
  - intros game items Hitems. exists (normalize game <$> items).
    rewrite processAndRender_lookup, Hitems. split; [done|].
    split; [apply length_fmap|].
    intros i item Hi. exists (normalize game item).
    by rewrite list_lookup_fmap, Hi.
Qed.

Lemma clean_sublist minValid values :
  clean minValid (VArr values) `sublist_of` Number <$> values.
Proof. apply sublist_filter. Qed.

Lemma slice0_sublist {A} (e : Z) (l : list A) : slice0 e l `sublist_of` l.
Proof. unfold slice0. destruct (e <? 0); apply sublist_take. Qed.

Lemma truncate_sublist {A} gameDef (l : list A) :
  truncate gameDef l `sublist_of` l.
Proof.
  unfold truncate. destruct gameDef as [def|]; [|done].
  destruct (type def); try done; apply slice0_sublist.
Qed.

(** X8.  The numbers of a normalised record are coercions of the raw
    elements in their original order (some left out, none repeated or
    moved).  A [digit] game with a non-negative [count] keeps at most
    [count] of them and a [today] game at most 5; for a [lotto] or
    [power] game and for a game without definition nothing is cut: every
    element that passes the test is kept. *)
Theorem normalize_numbers_shape game item values :
  Raw.numbers item = VArr values →
  Draw.numbers (normalize game item) `sublist_of` Number <$> values ∧
  (∀ def, FRONT_GAMES !! game = Some def → type def = digit →
          0 ≤ count def →
          Z.of_nat (length (Draw.numbers (normalize game item))) ≤ count def) ∧
  (∀ def, FRONT_GAMES !! game = Some def → type def = today →
          (length (Draw.numbers (normalize game item)) ≤ 5)%nat) ∧
  ((FRONT_GAMES !! game = None ∨
    ∃ def, FRONT_GAMES !! game = Some def ∧
           (type def = lotto ∨ type def = power)) →
   Draw.numbers (normalize game item) = clean 1 (VArr values)).
Proof.
  intros Hvalues. unfold App.normalize. simpl. rewrite Hvalues.
  split; [|split; [|split]].
  - etrans; [apply truncate_sublist|apply clean_sublist].
  - intros def -> Hdigit Hcount. simpl. rewrite Hdigit.
    rewrite slice0_length by done. lia.
  - intros def -> Htoday. simpl. rewrite Htoday.
    rewrite slice0_length by done. lia.
  - intros [-> |(def & -> & [Ht|Ht])]; simpl; [done|..];
      rewrite Ht; by case_decide.
Qed.

End NormalisationShape.

(** ** The newest-first sort of the live batch *)

Lemma sort_newest_first_sorted l :
  StronglySorted (fun x y => Raw.date y ≤ Raw.date x) (sort_newest_first l).
Proof.
  induction l as [|r l IH]; simpl; [constructor|].
  induction IH as [|x rest Hs IH Hall]; simpl; [repeat constructor|].
  destruct (Z.ltb_spec (Raw.date r) (Raw.date x)).
  - constructor; [done|]. rewrite Forall_forall. intros y Hy.
    apply elem_of_insert_newest in Hy as [->|Hy]; [lia|].
    rewrite Forall_forall in Hall. by apply Hall.
  - constructor; [by constructor|]. constructor; [done|].
    eapply Forall_impl; [exact Hall|]. intros y Hy. simpl in Hy. lia.
Qed.

Lemma filter_insert_newest d r l :
  filter (fun x => Raw.date x = d) (insert_newest r l)
  = filter (fun x => Raw.date x = d) (r :: l).
Proof.
  induction l as [|x l IH]; simpl; [done|].
  destruct (Z.ltb_spec (Raw.date r) (Raw.date x)); [|done].
  rewrite filter_cons, IH, !filter_cons.
  destruct (decide (Raw.date x = d)), (decide (Raw.date r = d)); try done.
  lia.
Qed.

Lemma sort_newest_first_fixed l :
  StronglySorted (fun x y => Raw.date y ≤ Raw.date x) l →
  sort_newest_first l = l.
Proof.
  induction 1 as [|x l Hs IH Hall]; simpl; [done|]. rewrite IH.
  destruct l as [|y l']; [done|]. simpl.
  apply Forall_cons in Hall as [Hy _].
  by destruct (Z.ltb_spec (Raw.date x) (Raw.date y)); [lia|].
Qed.

(** X9.  The sort that the jackpot loop applies to every live array
    rearranges it and nothing else: the result holds the same records, is
    ordered newest first, keeps records of one date in their original
    order, and sorting it again changes nothing. *)
Theorem sort_newest_first_spec l :
  sort_newest_first l ≡ₚ l ∧
  StronglySorted (fun x y => Raw.date y ≤ Raw.date x) (sort_newest_first l) ∧
  (∀ d, filter (fun x => Raw.date x = d) (sort_newest_first l)
        = filter (fun x => Raw.date x = d) l) ∧
  sort_newest_first (sort_newest_first l) = sort_newest_first l.
Proof.
  split; [apply sort_newest_first_Permutation|].
  split; [apply sort_newest_first_sorted|]. split.
  - intros d. induction l as [|r l IH]; simpl; [done|].
    by rewrite filter_insert_newest, !filter_cons, IH.
  - apply sort_newest_first_fixed, sort_newest_first_sorted.
Qed.

(** ** The jackpot table *)

Lemma jackpot_entry_cases records old :
  jackpot_entry records old = old ∨
  ∃ latest j, latest ∈ records ∧ Raw.jackpot latest = Some j ∧ 0 < j ∧
              jackpot_entry records old = Some j.
Proof.
  unfold jackpot_entry.
  destruct (sort_newest_first records) as [|latest rest] eqn:E; [by left|].
  destruct (positive_jackpot latest) as [j|] eqn:Hj; [|by left].
  right. exists latest, j. apply positive_jackpot_Some in Hj as [Hj Hpos].
  repeat split; try done. apply elem_of_sort_newest_first. rewrite E. left.
Qed.

Lemma jackpot_entry_idem records old :
  jackpot_entry records (jackpot_entry records old) = jackpot_entry records old.
Proof.
  unfold jackpot_entry.
  destruct (sort_newest_first records) as [|latest rest]; [done|].
  by destruct (positive_jackpot latest).
Qed.

(** X10.  The jackpot loop only ever writes positive amounts taken from
    the live records of the same game, and it removes nothing: a table
    whose amounts are all positive stays so, every game with an entry
    keeps one, and running the loop a second time over the same live
    batch changes nothing. *)
Theorem update_jackpots_invariants liveData table :
  ((∀ g j, table !! g = Some j → 0 < j) →
   ∀ g j, update_jackpots liveData table !! g = Some j → 0 < j) ∧
  (∀ g j, update_jackpots liveData table !! g = Some j →
          table !! g = Some j ∨
          ∃ records r, liveData !! g = Some records ∧ r ∈ records ∧
                       Raw.jackpot r = Some j) ∧
  dom table ⊆ dom (update_jackpots liveData table) ∧
  update_jackpots liveData (update_jackpots liveData table)
    = update_jackpots liveData table.
Proof.
  assert (∀ g j, update_jackpots liveData table !! g = Some j →
            table !! g = Some j ∨
            ∃ records r, liveData !! g = Some records ∧ r ∈ records ∧
                         Raw.jackpot r = Some j ∧ 0 < j) as Hsrc.
  { intros g j. rewrite update_jackpots_lookup.
    destruct (liveData !! g) as [records|]; [|by left].
    destruct (jackpot_entry_cases records (table !! g))
      as [-> |(latest & j' & Hin & Hj & Hpos & ->)]; [by left|].
    intros [= <-]. right. by exists records, latest. }
  split; [|split; [|split]].
  - intros Hpos g j Hg.
    destruct (Hsrc g j Hg) as [H|(? & ? & _ & _ & _ & H)]; [by eapply Hpos|done].
  - intros g j Hg.
    destruct (Hsrc g j Hg) as [H|(records & r & ? & ? & ? & _)]; [by left|].
    right. by exists records, r.
  - intros g. rewrite !elem_of_dom, update_jackpots_lookup.
    intros [j Hj]. destruct (liveData !! g) as [records|]; [|by eexists].
    destruct (jackpot_entry_cases records (table !! g))
      as [-> |(? & j' & _ & _ & _ & ->)]; by eexists.
  - apply map_eq. intros g. rewrite !update_jackpots_lookup.
    destruct (liveData !! g); [apply jackpot_entry_idem|done].
Qed.

(** ** The freshness evaluation on arbitrary data *)

(** X11.  Whatever the order inside the timelines, the evaluation reads
    nothing but the first record of each non-empty timeline: it is
    [success] exactly when one of these first records is dated at or after
    the instant three calendar days before [now]; it reports "no data" exactly when every
    timeline is empty; and a reported date is the greatest date among the
    first records.  The record count never changes the outcome. *)
Theorem checkSystemStatus_first_records getDate setDate now data :
  (checkSystemStatus getDate setDate now data = StatusSuccess ↔
   ∃ g first rest, data !! g = Some (first :: rest) ∧
                   threeDaysAgo getDate setDate now ≤ Draw.date first) ∧
  (checkSystemStatus getDate setDate now data = StatusError NoData ↔
   ∀ g l, data !! g = Some l → l = []) ∧
  (∀ d, checkSystemStatus getDate setDate now data = StatusError (LocaleDate d) →
        (∃ g first rest, data !! g = Some (first :: rest) ∧
                         Draw.date first = d) ∧
        (∀ g first rest, data !! g = Some (first :: rest) →
                         Draw.date first ≤ d)).
Proof.
  pose proof (scan_hasLatest (threeDaysAgo getDate setDate now) (map_to_list data)
                (false, None)) as Hh.
  pose proof (scan_latest (threeDaysAgo getDate setDate now) (map_to_list data)
                (false, None)) as Hl.
  pose proof (dataCount_zero data) as Hcount.
  unfold checkSystemStatus.
  destruct (foldl _ _ _) as [hasLatestData latestDateObj]. simpl in *.
  assert (hasLatestData = true ↔
          ∃ g first rest, data !! g = Some (first :: rest) ∧
                          threeDaysAgo getDate setDate now ≤ Draw.date first) as Hfresh.
  { rewrite Hh. split.
    - intros [?|(g & f & r & Hin & ?)]; [done|].
      apply elem_of_map_to_list in Hin. by exists g, f, r.
    - intros (g & f & r & Hg & ?). right. exists g, f, r.
      split; [by apply elem_of_map_to_list|done]. }
  assert (hasLatestData = true → dataCount data ≠ 0%nat) as Hnz.
  { intros (g & f & r & Hg & _)%Hfresh Hz. rewrite Hcount in Hz.
    by specialize (Hz _ _ Hg). }
  assert (latestDateObj = None ↔ ∀ g l, data !! g = Some l → l = [])
    as Hnone.
  { destruct latestDateObj as [d|].
    - split; [done|]. intros Hall.
      destruct Hl as ([?|(g & f & r & Hin & _)] & _); [done|].
      apply elem_of_map_to_list in Hin. by specialize (Hall _ _ Hin).
    - split; [|done]. intros _ g l Hg. destruct Hl as [_ Hall].
      eapply Hall. by apply elem_of_map_to_list. }
  split; [|split].
  - rewrite <- Hfresh. split.
    + destruct (_ =? _)%nat, hasLatestData; simpl; done.
    + intros ->. specialize (Hnz eq_refl).
      by destruct (Nat.eqb_spec (dataCount data) 0).
  - rewrite <- Hnone. split.
    + destruct (_ || _); [|done]. by destruct latestDateObj.
    + intros ->.
      assert (dataCount data = 0%nat) as ->; [|done].
      apply Hcount, Hnone. done.
  - intros d Hd.
    assert (latestDateObj = Some d) as ->.
    { destruct (_ || _); [|done]. by destruct latestDateObj; simplify_eq. }
    destruct Hl as ([?|(g & f & r & Hin & ?)] & _ & Hall); [done|].
    split.
    + apply elem_of_map_to_list in Hin. by exists g, f, r.
    + intros g' f' r' Hg'. eapply Hall. by apply elem_of_map_to_list.
Qed.

(** ** The next draw date within the week *)

Lemma find_split {A} (P : A → bool) l x :
  List.find P l = Some x →
  ∃ before after, l = before ++ x :: after ∧ P x = true ∧
                  ∀ y, y ∈ before → P y = false.
Proof.
  induction l as [|a l IH]; simpl; [done|].
  destruct (P a) eqn:Ha.
  - intros [= ->]. exists [], l. repeat split; try done.
    by intros y ?%elem_of_nil.
  - intros (before & after & -> & Hx & Hb)%IH.
    exists (a :: before), after. repeat split; try done.
    intros y [->|Hy]%elem_of_cons; [done|by apply Hb].
Qed.

Lemma find_none_all {A} (P : A → bool) l :
  List.find P l = None → ∀ y, y ∈ l → P y = false.
Proof.
  induction l as [|a l IH]; simpl; [by intros _ y ?%elem_of_nil|].
  destruct (P a) eqn:Ha; [done|].
  intros Hn y [->|Hy]%elem_of_cons; [done|by apply IH].
Qed.

Lemma getDay_shift today j :
  getDay (today + j) = (getDay today + j) mod 7.
Proof.
  unfold getDay. rewrite Zplus_mod_idemp_l. f_equal. lia.
Qed.

Lemma getNextDrawDate_cases first rest today :
  (∃ before next after,
     first :: rest = before ++ next :: after ∧
     (∀ d, d ∈ before → d ≤ getDay today) ∧ getDay today < next ∧
     getNextDrawDate (Some (first :: rest)) today
       = DrawOn (today + (next - getDay today))
                (weekday_label (getDay (today + (next - getDay today))))) ∨
  ((∀ d, d ∈ first :: rest → d ≤ getDay today) ∧
   getNextDrawDate (Some (first :: rest)) today
     = DrawOn (today + (7 - getDay today + first))
              (weekday_label (getDay (today + (7 - getDay today + first))))).
Proof.
  unfold getNextDrawDate. cbv zeta.
  destruct (List.find (fun d => getDay today <? d) (first :: rest))
    as [next|] eqn:Hfind.
  - left. apply find_split in Hfind as (before & after & Hdays & Hlt & Hbefore).
    exists before, next, after. split; [done|]. split; [|split; [lia|done]].
    intros d Hd. specialize (Hbefore d Hd). simpl in Hbefore. lia.
  - right. split; [|done]. intros d Hd.
    pose proof (find_none_all _ _ Hfind d Hd) as Hd'. simpl in Hd'. lia.
Qed.

(** X12.  For draw days that are weekdays (0 to 6) the computed date is
    never today and never more than a week away: it lies 1 to 7 days after
    today, its weekday is one of the draw days, and the label is the
    [weekMap] entry of that weekday. *)
Theorem getNextDrawDate_within_week first rest today :
  (∀ d, d ∈ first :: rest → 0 ≤ d ≤ 6) →
  ∃ target,
    getNextDrawDate (Some (first :: rest)) today
      = DrawOn target (weekday_label (getDay target)) ∧
    today < target ≤ today + 7 ∧
    getDay target ∈ first :: rest ∧
    is_Some (weekMap !! Z.to_nat (getDay target)).
Proof.
  intros Hrange. pose proof (getDay_range today) as Hcur.
  assert (∀ w, 0 ≤ w ≤ 6 → is_Some (weekMap !! Z.to_nat w)) as Hlabel.
  { intros w Hw. apply lookup_lt_is_Some. simpl. lia. }
  destruct (getNextDrawDate_cases first rest today)
    as [(before & next & after & Hdays & Hbefore & Hlt & Hres)|[Hall Hres]].
  - assert (next ∈ first :: rest) as Hin.
    { rewrite Hdays, elem_of_app. right. left. }
    pose proof (Hrange _ Hin) as Hn.
    pose proof (getDay_same_week today next Hn) as Hday.
    exists (today + (next - getDay today)).
    rewrite Hday in *. split; [done|]. split; [lia|]. split; [done|].
    by apply Hlabel.
  - assert (first ∈ first :: rest) as Hin by left.
    pose proof (Hrange _ Hin) as Hn.
    pose proof (getDay_next_week today first Hn) as Hday.
    pose proof (Hall _ Hin) as Hle.
    exists (today + (7 - getDay today + first)).
    rewrite Hday in *. split; [done|]. split; [lia|]. split; [done|].
    by apply Hlabel.
Qed.

(** X13.  For an ascending list of weekdays the computed date is the
    very next draw after today: no day strictly between today and the
    result falls on a draw day. *)
Theorem getNextDrawDate_skips_no_draw first rest today target label t :
  StronglySorted Z.lt (first :: rest) →
  (∀ d, d ∈ first :: rest → 0 ≤ d ≤ 6) →
  getNextDrawDate (Some (first :: rest)) today = DrawOn target label →
  today < t < target →
  getDay t ∉ first :: rest.
Proof.
  intros Hs Hrange Hres Ht. pose proof (getDay_range today) as Hcur.
  replace t with (today + (t - today)) by lia. rewrite getDay_shift.
  destruct (getNextDrawDate_cases first rest today)
    as [(before & next & after & Hdays & Hbefore & Hlt & Hres')|[Hall Hres']];
    rewrite Hres' in Hres; injection Hres as <- _.
  - assert (next ∈ first :: rest) as Hin.
    { rewrite Hdays, elem_of_app. right. left. }
    pose proof (Hrange _ Hin).
    rewrite Z.mod_small by lia. intros Hmem.
    rewrite Hdays in Hs, Hmem.
    pose proof (first_above_least _ _ _ _ _ Hs Hbefore Hmem). lia.
  - assert (first ∈ first :: rest) as Hin by left.
    pose proof (Hrange _ Hin). intros Hmem.
    destruct (Z.lt_ge_cases (getDay today + (t - today)) 7) as [Hsmall|Hbig].
    + rewrite Z.mod_small in Hmem by lia.
      specialize (Hall _ Hmem). lia.
    + replace (getDay today + (t - today))
        with (getDay today + (t - today) - 7 + 1 * 7) in Hmem by lia.
      rewrite Z.mod_add, Z.mod_small in Hmem by lia.
      apply StronglySorted_inv in Hs as [_ Hmin].
      rewrite Forall_forall in Hmin.
      apply elem_of_cons in Hmem as [Heq|Hmem]; [lia|].
      specialize (Hmin _ Hmem). lia.
Qed.

(* ================================================================== *)
(** * Properties of the hot-number statistics *)
(* ================================================================== *)

Lemma freq_count_bump k k' freq :
  freq_count k' (bump k freq)
  = if decide (k = k') then S (freq_count k' freq) else freq_count k' freq.
Proof.
  induction freq as [|[k0 c] freq IH]; simpl.
  - repeat case_decide; done.
  - destruct (decide (k0 = k)) as [->|Hne]; simpl.
    + repeat case_decide; done.
    + rewrite IH. repeat case_decide; congruence.
Qed.

Lemma elem_of_keys_bump k k' freq :
  k' ∈ (bump k freq).*1 ↔ k' = k ∨ k' ∈ freq.*1.
Proof.
  induction freq as [|[k0 c] freq IH]; simpl.
  - rewrite list_elem_of_singleton, elem_of_nil. naive_solver.
  - destruct (decide (k0 = k)) as [->|Hne]; simpl.
    + rewrite !elem_of_cons. naive_solver.
    + rewrite !elem_of_cons, IH. naive_solver.
Qed.

Lemma NoDup_keys_bump k freq :
  NoDup freq.*1 → NoDup (bump k freq).*1.
Proof.
  induction freq as [|[k0 c] freq IH]; simpl.
  - intros _. apply NoDup_singleton.
  - intros [Hk0 Hnd]%NoDup_cons.
    destruct (decide (k0 = k)) as [->|Hne]; simpl.
    + by apply NoDup_cons.
    + apply NoDup_cons. split; [|by apply IH].
      rewrite elem_of_keys_bump. naive_solver.
Qed.

Lemma positive_bump k freq :
  (∀ e, e ∈ freq → (0 < e.2)%nat) → ∀ e, e ∈ bump k freq → (0 < e.2)%nat.
Proof.
  induction freq as [|[k0 c] freq IH]; simpl; intros Hpos e.
  - intros ->%list_elem_of_singleton. simpl. lia.
  - destruct (decide (k0 = k)) as [->|Hne].
    + intros [->|He]%elem_of_cons; [simpl; lia|]. apply Hpos. by right.
    + intros [->|He]%elem_of_cons.
      * apply (Hpos (k0, c)). left.
      * apply IH; [|done]. intros e' He'. apply Hpos. by right.
Qed.

Lemma elem_of_freq k c freq :
  NoDup freq.*1 →
  (k, c) ∈ freq ↔ k ∈ freq.*1 ∧ freq_count k freq = c.
Proof.
  induction freq as [|[k0 c0] freq IH]; simpl.
  - intros _. rewrite !elem_of_nil. naive_solver.
  - intros [Hk0 Hnd]%NoDup_cons. rewrite !elem_of_cons, (IH Hnd).
    destruct (decide (k0 = k)) as [->|Hne]; naive_solver.
Qed.

(** The table while the names [keys] are filed into it, from any start. *)
Lemma tally_keys dataset freq :
  foldl (fun freq d =>
           foldl (fun freq n => bump (key_of n) freq) freq (Draw.numbers d))
        freq dataset
  = foldl (fun freq k => bump k freq) freq (drawn_keys dataset).
Proof.
  unfold drawn_keys. revert freq.
  induction dataset as [|d dataset IH]; intros freq; simpl; [done|].
  rewrite IH, fmap_app, foldl_app. f_equal.
  generalize (Draw.numbers d). clear. intros l. revert freq.
  induction l as [|n l IH]; intros freq; simpl; [done|]. apply IH.
Qed.

Lemma filed_keys keys freq :
  NoDup freq.*1 →
  (∀ e, e ∈ freq → (0 < e.2)%nat) →
  let freq' := foldl (fun freq k => bump k freq) freq keys in
  NoDup freq'.*1 ∧
  (∀ e, e ∈ freq' → (0 < e.2)%nat) ∧
  (∀ k, k ∈ freq'.*1 ↔ k ∈ freq.*1 ∨ k ∈ keys) ∧
  (∀ k, freq_count k freq'
        = (freq_count k freq + length (filter (fun k' => k' = k) keys))%nat).
Proof.
  revert freq. induction keys as [|k0 keys IH]; intros freq Hnd Hpos; simpl.
  - split; [done|]. split; [done|]. split.
    + intros k. rewrite elem_of_nil. naive_solver.
    + intros k. simpl. lia.
  - destruct (IH (bump k0 freq)) as (Hnd' & Hpos' & Hkeys & Hcount).
    { by apply NoDup_keys_bump. }
    { by apply positive_bump. }
    split; [done|]. split; [done|]. split.
    + intros k. rewrite Hkeys, elem_of_keys_bump, elem_of_cons. naive_solver.
    + intros k. rewrite Hcount, freq_count_bump, filter_cons.
      repeat case_decide; simpl; try congruence; lia.
Qed.

Lemma tally_spec dataset :
  NoDup (tally dataset).*1 ∧
  ∀ k c, (k, c) ∈ tally dataset ↔
         k ∈ drawn_keys dataset ∧ c = occurrences k dataset.
Proof.
  unfold tally. rewrite tally_keys.
  destruct (filed_keys (drawn_keys dataset) []) as (Hnd & _ & Hkeys & Hcount).
  { constructor. } { by intros e ?%elem_of_nil. }
  split; [done|]. intros k c. rewrite (elem_of_freq _ _ _ Hnd), Hkeys, Hcount.
  simpl. unfold occurrences. rewrite elem_of_nil. naive_solver.
Qed.

Lemma insert_index_Permutation e l : insert_index e l ≡ₚ e :: l.
Proof.
  induction l as [|x l IH]; simpl; [done|].
  destruct (_ <? _); [done|]. rewrite IH. apply Permutation_swap.
Qed.

Lemma entries_Permutation freq : entries freq ≡ₚ freq.
Proof.
  unfold entries.
  assert (∀ l, foldr insert_index [] l ≡ₚ l) as ->.
  { induction l as [|x l IH]; simpl; [done|].
    by rewrite insert_index_Permutation, IH. }
  induction freq as [|e freq IH]; [done|].
  rewrite !filter_cons. destruct (decide (is_index e.1)); simpl.
  - rewrite decide_False by tauto. by rewrite IH.
  - rewrite decide_True by done.
    rewrite <- Permutation_middle. by rewrite IH.
Qed.

Lemma insert_hot_Permutation e l : insert_hot e l ≡ₚ e :: l.
Proof.
  induction l as [|x l IH]; simpl; [done|].
  destruct (_ <? _)%nat; [|done]. rewrite IH. apply Permutation_swap.
Qed.

Lemma sort_hot_Permutation l : sort_hot l ≡ₚ l.
Proof.
  induction l as [|x l IH]; simpl; [done|].
  by rewrite insert_hot_Permutation, IH.
Qed.

Lemma sort_hot_sorted l : StronglySorted hotter (sort_hot l).
Proof.
  induction l as [|e l IH]; simpl; [constructor|].
  induction IH as [|x rest Hs IH Hall]; simpl; [repeat constructor|].
  destruct (Nat.ltb_spec e.2 x.2).
  - constructor; [done|]. rewrite Forall_forall. intros y Hy.
    rewrite insert_hot_Permutation in Hy.
    apply elem_of_cons in Hy as [->|Hy]; [unfold hotter; lia|].
    rewrite Forall_forall in Hall. by apply Hall.
  - constructor; [by constructor|]. constructor; [done|].
    eapply Forall_impl; [exact Hall|]. unfold hotter. intros y Hy. lia.
Qed.

Lemma hot_numbers_split dataset :
  ∃ others,
    sort_hot (entries (tally dataset)) = hot_numbers dataset ++ others ∧
    (others ≠ [] → length (hot_numbers dataset) = 5%nat).
Proof.
  unfold hot_numbers, slice0. simpl.
  exists (drop 5 (sort_hot (entries (tally dataset)))).
  split; [by rewrite take_drop|].
  intros Hne. rewrite length_take.
  destruct (decide (5 ≤ length (sort_hot (entries (tally dataset)))))%nat;
    [lia|].
  destruct Hne. apply drop_ge. lia.
Qed.

Lemma elem_of_sorted_entries e dataset :
  e ∈ sort_hot (entries (tally dataset)) ↔ e ∈ tally dataset.
Proof. by rewrite sort_hot_Permutation, entries_Permutation. Qed.

(** X14.  Every pair that the statistics show is a number that occurs
    in the window together with the exact number of its occurrences, which
    is at least 1; no number is shown twice and at most five are shown. *)
Theorem hot_numbers_counts dataset :
  (length (hot_numbers dataset) ≤ 5)%nat ∧
  NoDup (hot_numbers dataset).*1 ∧
  ∀ k c, (k, c) ∈ hot_numbers dataset →
         k ∈ drawn_keys dataset ∧ c = occurrences k dataset ∧ (0 < c)%nat.
Proof.
  destruct (hot_numbers_split dataset) as (others & Hsplit & _).
  destruct (tally_spec dataset) as [Hnd Hmem].
  assert (NoDup (sort_hot (entries (tally dataset))).*1) as Hnd'.
  { by rewrite sort_hot_Permutation, entries_Permutation. }
  split; [|split].
  - unfold hot_numbers, slice0. simpl. rewrite length_take. lia.
  - rewrite Hsplit, fmap_app in Hnd'. by apply NoDup_app in Hnd' as [? _].
  - intros k c Hin.
    assert ((k, c) ∈ tally dataset) as Ht.
    { apply elem_of_sorted_entries. rewrite Hsplit, elem_of_app. by left. }
    apply Hmem in Ht as [Hk ->]. repeat split; try done.
    unfold occurrences. apply list_elem_of_lookup in Hk as [i Hi].
    destruct (filter _ _) eqn:E; [|simpl; lia].
    assert (k ∈ filter (fun k' => k' = k) (drawn_keys dataset)) as Hf.
    { apply list_elem_of_filter. split; [done|].
      apply list_elem_of_lookup. by exists i. }
    rewrite E in Hf. by apply elem_of_nil in Hf.
Qed.

(** X15.  The pairs are listed by falling count, and they are the most
    frequent ones: a number of the window that is not shown occurs at most
    as often as each number shown, and it can only be missing when five
    numbers are shown. *)
Theorem hot_numbers_top dataset :
  StronglySorted hotter (hot_numbers dataset) ∧
  ∀ k, k ∈ drawn_keys dataset → k ∉ (hot_numbers dataset).*1 →
       length (hot_numbers dataset) = 5%nat ∧
       ∀ k' c', (k', c') ∈ hot_numbers dataset →
                (occurrences k dataset ≤ c')%nat.
Proof.
  destruct (hot_numbers_split dataset) as (others & Hsplit & Hfull).
  pose proof (sort_hot_sorted (entries (tally dataset))) as Hs.
  rewrite Hsplit in Hs. apply StronglySorted_app in Hs as (Hcross & Hs & _).
  split; [done|]. intros k Hk Hout.
  assert ((k, occurrences k dataset) ∈ others) as Hin.
  { assert ((k, occurrences k dataset) ∈ tally dataset) as Ht
      by by apply tally_spec.
    apply elem_of_sorted_entries in Ht.
    rewrite Hsplit, elem_of_app in Ht. destruct Ht as [Ht|Ht]; [|done].
    destruct Hout. apply list_elem_of_fmap. by exists (k, occurrences k dataset). }
  split.
  - apply Hfull. intros ->. by apply elem_of_nil in Hin.
  - intros k' c' Hin'. by apply (Hcross _ _ Hin' Hin).
Qed.

(** X16.  The placeholder is shown exactly for a missing or empty
    window.  A window of records that hold no numbers is not such a case:
    it gives an empty list of balls, not the placeholder; and nothing at
    all is done when the element is not on the page. *)
Theorem renderHotStats_edges dataset :
  renderHotStats false dataset = None ∧
  (renderHotStats true dataset = Some NoStats ↔
   dataset = None ∨ dataset = Some []) ∧
  (∀ records, dataset = Some records → records ≠ [] →
     (∀ d, d ∈ records → Draw.numbers d = []) →
     renderHotStats true dataset = Some (Hot [])).
Proof.
  split; [done|]. split.
  - destruct dataset as [[|d records]|]; simpl; naive_solver.
  - intros records -> Hne Hempty.
    destruct records as [|d records]; [done|].
    change (Some (Hot (hot_numbers (d :: records))) = Some (Hot [])).
    do 2 f_equal.
    assert (drawn_keys (d :: records) = []) as Hkeys.
    { unfold drawn_keys.
      assert ((d :: records) ≫= Draw.numbers = []) as ->; [|done].
      revert Hempty. generalize (d :: records). clear.
      induction l as [|x l IH]; intros Hempty; [done|].
      simpl. rewrite (Hempty x) by left. simpl. apply IH.
      intros y Hy. apply Hempty. by right. }
    unfold hot_numbers, tally. by rewrite tally_keys, Hkeys.
Qed.

(** ** Equal counts *)

Lemma filter_sublist_mono {A} (P : A → Prop) `{!∀ x, Decision (P x)} l1 l2 :
  l1 `sublist_of` l2 → filter P l1 `sublist_of` filter P l2.
Proof.
  induction 1 as [|x l1 l2 Hs IH|x l1 l2 Hs IH]; [done|..];
    rewrite ?filter_cons; destruct (decide (P x));
    auto using sublist_skip, sublist_cons.
Qed.

Lemma pair_sublist_sorted {A} (R : relation A) `{!Reflexive R} l a b :
  StronglySorted R l → a ∈ l → b ∈ l → ¬ R b a → [a; b] `sublist_of` l.
Proof.
  induction 1 as [|x l Hs IH Hall]; intros Ha Hb Hab.
  { by apply elem_of_nil in Ha. }
  rewrite Forall_forall in Hall.
  apply elem_of_cons in Ha as [->|Ha].
  - apply elem_of_cons in Hb as [->|Hb]; [by destruct Hab|].
    apply sublist_skip. by apply singleton_sublist_l.
  - apply elem_of_cons in Hb as [->|Hb]; [destruct Hab; by apply Hall|].
    apply sublist_cons. by apply IH.
Qed.

Lemma pair_sublist_prefix {A} (l1 l2 : list A) a b :
  [a; b] `sublist_of` l1 ++ l2 → b ∈ l1 → b ∉ l2 → [a; b] `sublist_of` l1.
Proof.
  intros (k1 & k2 & Heq & Hk1 & Hk2)%sublist_app_r Hb Hnb.
  destruct k1 as [|x [|y k1]]; simpl in Heq; simplify_eq.
  - destruct Hnb. eapply elem_of_sublist; [|exact Hk2]. right. left.
  - destruct Hnb. eapply elem_of_sublist; [|exact Hk2]. left.
  - destruct k1; [|done]. done.
Qed.

Lemma filter_insert_hot c e l :
  filter (fun x => x.2 = c) (insert_hot e l)
  = filter (fun x => x.2 = c) (e :: l).
Proof.
  induction l as [|x l IH]; simpl; [done|].
  destruct (Nat.ltb_spec e.2 x.2); [|done].
  rewrite filter_cons, IH, !filter_cons.
  destruct (decide (x.2 = c)), (decide (e.2 = c)); try done. lia.
Qed.

(** The sort by count keeps entries of one count in their order. *)
Lemma sort_hot_stable c l :
  filter (fun x => x.2 = c) (sort_hot l) = filter (fun x => x.2 = c) l.
Proof.
  induction l as [|e l IH]; simpl; [done|].
  by rewrite filter_insert_hot, !filter_cons, IH.
Qed.

Local Instance index_le_refl : Reflexive index_le.
Proof. intros x. unfold index_le. lia. Qed.

Lemma insert_index_sorted e l :
  StronglySorted index_le l → StronglySorted index_le (insert_index e l).
Proof.
  induction 1 as [|x rest Hs IH Hall]; simpl; [repeat constructor|].
  destruct (Z.ltb_spec (index_value e.1) (index_value x.1)).
  - constructor; [by constructor|]. constructor; [unfold index_le; lia|].
    eapply Forall_impl; [exact Hall|]. unfold index_le. intros y Hy. lia.
  - constructor; [done|]. rewrite Forall_forall. intros y Hy.
    rewrite insert_index_Permutation in Hy.
    apply elem_of_cons in Hy as [->|Hy]; [unfold index_le; lia|].
    rewrite Forall_forall in Hall. by apply Hall.
Qed.

Lemma index_entries_sorted l :
  StronglySorted index_le (foldr insert_index [] l).
Proof.
  induction l as [|e l IH]; simpl; [constructor|].
  by apply insert_index_sorted.
Qed.

Lemma elem_of_index_entries e l :
  e ∈ foldr insert_index [] l ↔ e ∈ l.
Proof.
  induction l as [|x l IH]; simpl; [done|].
  by rewrite insert_index_Permutation, !elem_of_cons, IH.
Qed.

(** X17.  Ties are broken by the order in which the table lists its
    entries: of two shown numbers with the same count, a whole number
    (from 0 to 2^32 - 2) is listed before a number that is not one, and
    two whole numbers are listed in ascending order. *)
Theorem hot_numbers_ties dataset k1 k2 c :
  (k1, c) ∈ hot_numbers dataset →
  (k2, c) ∈ hot_numbers dataset →
  is_index k1 = true →
  is_index k2 = false ∨
  (is_index k2 = true ∧ index_value k1 < index_value k2) →
  [(k1, c); (k2, c)] `sublist_of` hot_numbers dataset.
Proof.
  intros H1 H2 Hi1 Hcase.
  destruct (hot_numbers_split dataset) as (others & Hsplit & _).
  destruct (tally_spec dataset) as [Hnd _].
  assert ((k1, c) ∈ tally dataset ∧ (k2, c) ∈ tally dataset) as [Hf1 Hf2].
  { split; apply elem_of_sorted_entries; rewrite Hsplit, elem_of_app;
      by left. }
  assert ([(k1, c); (k2, c)] `sublist_of` entries (tally dataset)) as Hentries.
  { unfold entries.
    assert ((k1, c) ∈ foldr insert_index []
              (filter (fun e => is_index e.1) (tally dataset))) as Hin1.
    { apply elem_of_index_entries, list_elem_of_filter. simpl.
      by rewrite Hi1. }
    destruct Hcase as [Hn2|[Hi2 Hlt]].
    - apply (sublist_app [_] _ [_]); apply singleton_sublist_l; [done|].
      apply list_elem_of_filter. simpl. rewrite Hn2. split; [by intros []|done].
    - apply sublist_inserts_r.
      apply (pair_sublist_sorted index_le);
        [apply index_entries_sorted|done| |unfold index_le; simpl; lia].
      apply elem_of_index_entries, list_elem_of_filter. simpl.
      by rewrite Hi2. }
  assert ([(k1, c); (k2, c)] `sublist_of` sort_hot (entries (tally dataset))) as Hsorted.
  { apply (filter_sublist_mono (fun x => x.2 = c)) in Hentries.
    rewrite !filter_cons, !decide_True, filter_nil in Hentries by done.
    rewrite <- (sort_hot_stable c (entries (tally dataset))) in Hentries.
    etrans; [exact Hentries|apply sublist_filter]. }
  rewrite Hsplit in Hsorted.
  apply (pair_sublist_prefix _ others); [done..|].
  intros Hin.
  assert (NoDup (sort_hot (entries (tally dataset))).*1) as Hnd'.
  { by rewrite sort_hot_Permutation, entries_Permutation. }
  rewrite Hsplit, fmap_app in Hnd'.
  apply NoDup_app in Hnd' as (_ & Hdisj & _).
  apply (Hdisj k2); apply list_elem_of_fmap; by exists (k2, c).
Qed.

(* ================================================================== *)
(** * Properties of the history rows *)
(* ================================================================== *)

Lemma take_last_lookup {A} (l : list A) :
  take (length l - 1) l ++ option_list (l !! (length l - 1)%nat) = l.
Proof.
  induction l as [|x l IH] using rev_ind; [done|].
  rewrite length_app. simpl.
  replace (length l + 1 - 1)%nat with (length l) by lia.
  rewrite take_app_length, lookup_app_r by lia.
  by replace (length l - length l)%nat with O by lia.
Qed.

(** X18.  A history row shows every number of the chosen sequence once
    and in order: the plain balls followed by the bonus ball give back the
    sequence.  A bonus ball is shown exactly when the game is not a
    [digit] game, is a [power] game or has the [special] flag, and the
    sequence is longer than [count]; it is then the last number, and at
    least [count] plain balls remain. *)
Theorem history_balls_complete drawOrder gameDef item :
  normal (history_balls drawOrder gameDef item)
    ++ option_list (special (history_balls drawOrder gameDef item))
  = source_numbers drawOrder item ∧
  (is_Some (special (history_balls drawOrder gameDef item)) ↔
   type gameDef ≠ digit ∧
   (type gameDef = power ∨ Config.special gameDef = Some true) ∧
   count gameDef < Z.of_nat (length (source_numbers drawOrder item)) ∧
   source_numbers drawOrder item ≠ []) ∧
  (∀ b, special (history_balls drawOrder gameDef item) = Some b →
        last (source_numbers drawOrder item) = Some b ∧
        count gameDef
          ≤ Z.of_nat (length (normal (history_balls drawOrder gameDef item)))).
Proof.
  unfold history_balls. cbv zeta.
  set (numbers := source_numbers drawOrder item).
  destruct (decide (type gameDef = digit)) as [Hd|Hd]; simpl.
  { rewrite app_nil_r. split; [done|]. split; [|done].
    split; [by intros [? ?]|]. by intros (? & _). }
  assert (bool_decide (type gameDef = power)
          || bool_decide (Config.special gameDef = Some true) = true ↔
          type gameDef = power ∨ Config.special gameDef = Some true) as Hflag.
  { rewrite orb_true_iff, !bool_decide_eq_true. done. }
  destruct (bool_decide (type gameDef = power)
            || bool_decide (Config.special gameDef = Some true)) eqn:Ef;
    simpl.
  2:{ rewrite app_nil_r. split; [done|]. split; [|done].
      split; [by intros [? ?]|]. intros (_ & Hf & _).
      apply Hflag in Hf. done. }
  destruct (Z.ltb_spec (count gameDef) (Z.of_nat (length numbers)))
    as [Hlt|Hge]; simpl.
  2:{ rewrite app_nil_r. split; [done|]. split; [|done].
      split; [by intros [? ?]|]. intros (_ & _ & ? & _). lia. }
  assert (slice0 (Z.of_nat (length numbers) - 1) numbers
          = take (length numbers - 1) numbers) as Hslice.
  { unfold slice0. destruct (Z.ltb_spec (Z.of_nat (length numbers) - 1) 0).
    - assert (length numbers = 0%nat) as Hz by lia.
      apply nil_length_inv in Hz. by rewrite Hz.
    - f_equal. lia. }
  assert (Z.to_nat (Z.of_nat (length numbers) - 1)
          = (length numbers - 1)%nat) as Hidx by lia.
  rewrite Hslice, Hidx. split; [apply take_last_lookup|]. split.
  - split.
    + intros [b Hb]. repeat split; try done; [by apply Hflag|].
      intros Hnil. by rewrite Hnil in Hb.
    + intros (_ & _ & _ & Hne). apply lookup_lt_is_Some.
      destruct numbers; [done|]. simpl. lia.
  - intros b Hb. split.
    + rewrite last_lookup. rewrite <- Hb. f_equal. lia.
    + rewrite length_take.
      assert (length numbers ≠ 0%nat); [|lia].
      intros Hz. apply nil_length_inv in Hz. by rewrite Hz in Hb.
Qed.

(* ================================================================== *)
(** * Properties of the guards *)
(* ================================================================== *)

Lemma step_consistent st e :
  flags_consistent st → flags_consistent (step st e).
Proof.
  destruct st as [[initialized initializing] waiting].
  unfold flags_consistent, step, init_enter, init_leave.
  destruct e as [|[]], initialized, initializing, waiting as [|[|n]];
    simpl; intros (Hle & Hiff & Hdone);
    try lia; intuition (try lia; try discriminate).
Qed.

Lemma run_consistent_from st events :
  flags_consistent st → flags_consistent (foldl step st events).
Proof.
  revert st. induction events as [|e events IH]; intros st Hst; [done|].
  simpl. by apply IH, step_consistent.
Qed.

Lemma step_initialized st e :
  flags_consistent st → isInitialized st.1 = true → step st e = st.
Proof.
  destruct st as [[initialized initializing] waiting].
  unfold flags_consistent, step, init_enter. simpl.
  intros (_ & _ & Hdone) ->. rewrite (Hdone eq_refl). by destruct e.
Qed.

(** X19.  However calls of [init()] and their completions interleave,
    at most one call is ever past the guards and waiting, and
    [isInitializing] is set exactly while one is; after an initialisation
    has succeeded nothing changes the flags again, so the start-up steps
    are not run a second time. *)
Theorem init_runs_once events more :
  ((run events).2 ≤ 1)%nat ∧
  (isInitializing (run events).1 = true ↔ (run events).2 = 1%nat) ∧
  (isInitialized (run events).1 = true →
   run (events ++ more) = run events ∧
   isInitializing (run events).1 = false).
Proof.
  assert (flags_consistent (run events)) as Hc.
  { apply run_consistent_from. unfold flags_consistent. simpl.
    split; [lia|]. split; [|done]. split; [done|lia]. }
  destruct Hc as (Hle & Hiff & Hdone).
  split; [lia|]. split; [done|]. intros Hinit. split.
  - unfold run. rewrite foldl_app. fold (run events).
    assert (flags_consistent (run events)) as Hc by done.
    revert Hc Hinit. generalize (run events). clear. intros st Hc Hinit.
    induction more as [|e more IH]; [done|]. simpl.
    by rewrite step_initialized.
  - specialize (Hdone Hinit).
    destruct (isInitializing (run events).1) eqn:E; [|done].
    destruct Hiff as [Hiff _]. specialize (Hiff eq_refl). lia.
Qed.

Lemma admitted_gate_spaced window last calls :
  spaced window last (admitted (gate window) last calls) ∧
  admitted (gate window) last calls `sublist_of` calls.
Proof.
  revert last. induction calls as [|now calls IH]; intros last; simpl.
  { split; [done|]. done. }
  change (gate window last now)
    with (if now - last <? window then None else Some now).
  destruct (Z.ltb_spec (now - last) window).
  - destruct (IH last) as [Hs Hsub]. split; [done|]. by apply sublist_cons.
  - destruct (IH now) as [Hs Hsub].
    split; [by split|by apply sublist_skip].
Qed.

(** X20.  The two rate guards let a call through exactly when at least
    the window (5000 ms for [initFetch], 100 ms for [updateDashboard]) has
    passed since the last call they let through; hence of any sequence of
    calls the ones that run are at least that far apart, in call order,
    and a call that is turned away leaves the guard as it was. *)
Theorem rate_gates_space_calls last calls :
  spaced 5000 last (admitted initFetch_gate last calls) ∧
  admitted initFetch_gate last calls `sublist_of` calls ∧
  spaced 100 last (admitted updateDashboard_gate last calls) ∧
  admitted updateDashboard_gate last calls `sublist_of` calls ∧
  (∀ now, initFetch_gate last now = Some now ↔ 5000 ≤ now - last) ∧
  (∀ now, initFetch_gate last now = None ↔ now - last < 5000) ∧
  (∀ now, updateDashboard_gate last now = Some now ↔ 100 ≤ now - last) ∧
  (∀ now, updateDashboard_gate last now = None ↔ now - last < 100).
Proof.
  destruct (admitted_gate_spaced 5000 last calls) as [H1 H2].
  destruct (admitted_gate_spaced 100 last calls) as [H3 H4].
  split; [done|]. split; [done|]. split; [done|]. split; [done|].
  repeat split;
    unfold initFetch_gate, updateDashboard_gate, gate;
    case_match; intros; try done; lia.
Qed.

(* ================================================================== *)
(** * The dashboard: filters and windows *)
(* ================================================================== *)

Section BoardProofs.

Import Board.

Variable period_text : Z → string.
Variables getFullYear getMonth : Z → Z.
Variable parseInt : string → number.

Local Abbreviation filtered :=
  (Board.filtered period_text getFullYear getMonth parseInt).
Local Abbreviation updateDashboard :=
  (Board.updateDashboard period_text getFullYear getMonth parseInt).
Local Abbreviation period_matches := (Board.period_matches period_text).
Local Abbreviation year_matches := (Board.year_matches getFullYear parseInt).
Local Abbreviation month_matches := (Board.month_matches getMonth parseInt).

Lemma take_prefix_le {A} (l : list A) n m :
  (n ≤ m)%nat → take n l `prefix_of` take m l.
Proof.
  intros Hle. replace n with (n `min` m)%nat by lia.
  rewrite <- take_take. apply prefix_take.
Qed.

Lemma head_take {A} (l : list A) n : (0 < n)%nat → head (take n l) = head l.
Proof. destruct n, l; simpl; try done. lia. Qed.

(** X21.  The four datasets of the dashboard are nested: the history
    rows open the window of the last ten draws, which opens the window of
    the last thirty, which opens the filtered list; the counter is the
    length of the filtered list, the period shown is that of the first
    history row, and the placeholder and the "no result" message appear
    exactly when the filtered list is empty. *)
Theorem updateDashboard_windows f records :
  let v := updateDashboard f records in
  history v `prefix_of` stat_recent v ∧
  stat_recent v `prefix_of` stat_month v ∧
  stat_month v `prefix_of` stat_year v ∧
  stat_year v = filtered f (default [] records) ∧
  total_count v = length (stat_year v) ∧
  (length (history v) ≤ 5)%nat ∧
  latest_period v = Draw.period <$> head (history v) ∧
  (latest_period v = None ↔ stat_year v = []) ∧
  (no_result_hidden v = false ↔ stat_year v = []).
Proof.
  simpl. unfold slice0. simpl.
  split; [apply take_prefix_le; lia|].
  split; [apply take_prefix_le; lia|].
  split; [apply prefix_take|].
  split; [done|]. split; [done|].
  split; [rewrite length_take; lia|].
  split; [by rewrite head_take by lia|].
  split.
  - rewrite fmap_None. apply head_None.
  - rewrite Nat.ltb_ge. split.
    + intros Hlen. apply length_zero_iff_nil. lia.
    + by intros ->.
Qed.

Lemma updateDashboard_windows_nested f records :
  stat_recent (updateDashboard f records)
    `sublist_of` stat_month (updateDashboard f records) ∧
  stat_month (updateDashboard f records)
    `sublist_of` stat_year (updateDashboard f records).
Proof.
  simpl. unfold slice0. simpl. split; [|apply sublist_take].
  match goal with
  | |- take ?n ?l `sublist_of` take ?m ?l =>
      destruct (take_prefix_le l n m) as [rest ->]; [lia|]
  end.
  by apply sublist_inserts_r.
Qed.

Lemma elem_of_filter_when {A} (P : A → Prop) `{!∀ x, Decision (P x)}
    (active : bool) (l : list A) x :
  x ∈ (if active then filter P l else l) ↔ x ∈ l ∧ (active → P x).
Proof.
  destruct active; [rewrite list_elem_of_filter|]; simpl; naive_solver.
Qed.

Lemma filter_when_sublist {A} (P : A → Prop) `{!∀ x, Decision (P x)}
    (active : bool) (l : list A) :
  (if active then filter P l else l) `sublist_of` l.
Proof. destruct active; [apply sublist_filter|done]. Qed.

(** X22.  The filtered list keeps the stored order and holds exactly the
    records that pass every filter whose field is not empty; with the
    three fields empty nothing is removed. *)
Theorem filtered_spec f data :
  filtered f data `sublist_of` data ∧
  (∀ item, item ∈ filtered f data ↔
     item ∈ data ∧
     (on (filterPeriod f) → period_matches f item) ∧
     (on (filterYear f) → year_matches f item) ∧
     (on (filterMonth f) → month_matches f item)) ∧
  (filterPeriod f = "" ∧ filterYear f = "" ∧ filterMonth f = "" →
   filtered f data = data).
Proof.
  unfold Board.filtered. split; [|split].
  - etrans; [apply filter_when_sublist|].
    etrans; [apply filter_when_sublist|]. apply filter_when_sublist.
  - intros item. rewrite !elem_of_filter_when. naive_solver.
  - intros (-> & -> & ->). done.
Qed.

Lemma occurrences_sublist k d1 d2 :
  d1 `sublist_of` d2 → (occurrences k d1 ≤ occurrences k d2)%nat.
Proof.
  intros Hsub. unfold occurrences, drawn_keys.
  apply sublist_length, filter_sublist_mono, fmap_sublist.
  by apply bind_sublist.
Qed.

Lemma drawn_keys_sublist d1 d2 :
  d1 `sublist_of` d2 → drawn_keys d1 `sublist_of` drawn_keys d2.
Proof.
  intros Hsub. unfold drawn_keys. by apply fmap_sublist, bind_sublist.
Qed.

Lemma hot_numbers_filed k c dataset :
  (k, c) ∈ hot_numbers dataset → (k, c) ∈ tally dataset.
Proof.
  intros Hin. destruct (hot_numbers_split dataset) as (others & Hsplit & _).
  apply elem_of_sorted_entries. rewrite Hsplit, elem_of_app. by left.
Qed.

Lemma tally_wider k c d1 d2 :
  d1 `sublist_of` d2 → (k, c) ∈ tally d1 →
  ∃ c', (k, c') ∈ tally d2 ∧ (c ≤ c')%nat.
Proof.
  intros Hsub Hin.
  apply (proj2 (tally_spec d1)) in Hin as [Hk ->].
  exists (occurrences k d2). split; [|by apply occurrences_sublist].
  apply (proj2 (tally_spec d2)). split; [|done].
  eapply elem_of_sublist; [exact Hk|]. by apply drawn_keys_sublist.
Qed.

(** X23.  A number shown among the hot numbers of the last ten draws
    with count [c] was counted at least [c] times for the last thirty
    draws, and at least as often again for the whole filtered list. *)
Theorem updateDashboard_counts_grow f records k c :
  let v := updateDashboard f records in
  (k, c) ∈ hot_numbers (stat_recent v) →
  ∃ c_month c_year,
    (k, c_month) ∈ tally (stat_month v) ∧
    (k, c_year) ∈ tally (stat_year v) ∧
    (c ≤ c_month ≤ c_year)%nat.
Proof.
  intros v Hin. apply hot_numbers_filed in Hin.
  destruct (updateDashboard_windows_nested f records) as (Hrm & Hmy).
  destruct (tally_wider k c _ _ Hrm Hin) as (c_month & Hmonth & Hle1).
  destruct (tally_wider k c_month _ _ Hmy Hmonth) as (c_year & Hyear & Hle2).
  exists c_month, c_year. repeat split; done.
Qed.

End BoardProofs.

(* ================================================================== *)
(** * [POST /pack] next to [POST /predict] *)
(* ================================================================== *)

Section PackProofs.

Import Api PackRoute.

Variable ToString : value → string.
Variable timestamp : string.
Variable production : bool.
Variables algoBalance algoStat algoPattern algoAI : Params → outcome.

Local Abbreviation predict :=
  (Api.predict ToString timestamp production
     algoBalance algoStat algoPattern algoAI).
Local Abbreviation pack := (PackRoute.pack timestamp).

(** X24.  [/pack] answers 400 exactly when [game] or [school] is falsy
    and 200 otherwise.  Every body that it rejects is rejected by
    [/predict] as well, and every body for which [/predict] calls a
    strategy is accepted, with [game], [school] and [subMode] echoed in
    the metadata under the fixed mode 'pack' and with no tickets. *)
Theorem pack_rejects_less body :
  (status (pack body) = 400 ↔
   truthy (prop body "game") = false ∨ truthy (prop body "school") = false) ∧
  (status (pack body) ≠ 400 →
   status (pack body) = 200 ∧
   json (pack body) !! "tickets" = Some (VArr []) ∧
   json (pack body) !! "metadata"
   = Some (VObj {[ "game" := prop body "game";
                   "school" := prop body "school";
                   "mode" := VStr "pack";
                   "subMode" := prop body "subMode";
                   "timestamp" := VStr timestamp ]})) ∧
  (status (pack body) = 400 →
   predict body = {| reply := Api.missing_parameters; invoked := None |}) ∧
  (invoked (predict body) ≠ None → status (pack body) = 200).
Proof.
  assert (status (pack body) = 400 ↔
          truthy (prop body "game") = false ∨
          truthy (prop body "school") = false) as Hrej.
  { unfold PackRoute.pack.
    destruct (truthy (prop body "game")), (truthy (prop body "school"));
      simpl; naive_solver. }
  split; [exact Hrej|]. split; [|split].
  - unfold PackRoute.pack.
    destruct (truthy (prop body "game")), (truthy (prop body "school"));
      simpl; try done.
  - intros Hst. apply Hrej in Hst. apply predict_missing_parameter.
    destruct Hst as [-> | ->]; [done|].
    by destruct (truthy (prop body "game")).
  - intros Hinv. unfold Api.predict in Hinv.
    destruct (Api.dispatch ToString production body) as [early|[s p]] eqn:Hd;
      [done|].
    apply dispatch_inr in Hd as (Hg & Hs & _).
    unfold PackRoute.pack. by rewrite Hg, Hs.
Qed.

End PackProofs.

(* ================================================================== *)
(** * The further properties on concrete inputs *)
(* ================================================================== *)

(** A strategy that throws while the server runs in production. *)
Lemma predict_production_hides_detail_witness :
  json (reply (Api.predict (fun _ => "") sample_timestamp true
                 throwing_strategy throwing_strategy throwing_strategy
                 throwing_strategy single_request)) !! "message"
  = Some (VStr "伺服器錯誤").
Proof.
  rewrite (predict_production_hides_detail (fun _ => "") sample_timestamp
             throwing_strategy throwing_strategy throwing_strategy
             throwing_strategy single_request eq_refl).
  reflexivity.
Defined.

(** The bundle of a pack request. *)
Lemma dispatch_params_witness :
  ∃ p, Api.dispatch (fun _ => "") false pack_request = inr (balance, p) ∧
       targetCount p = 5 ∧ random p = false ∧ packMode p = VStr "pack_1".
Proof.
  eexists. split; [reflexivity|].
  destruct (dispatch_params (fun _ => "") false pack_request balance _ eq_refl)
    as (Htarget & _ & _ & _ & _ & _ & _ & (m & Hm & Hrandom & Hpack) & _).
  split; [exact Htarget|]. simpl in Hm. injection Hm as <-.
  split; [exact Hrandom|exact Hpack].
Defined.

(** The numbers of a single selection reach the response untouched. *)
Lemma predict_single_fields_witness :
  json (reply (predict_with (constant_strategy selection_with_game)
                 single_request)) !! "numbers"
  = Some (VArr [num 3; num 8; num 21; num 30; num 39]).
Proof.
  destruct (predict_single_fields (fun _ => "") sample_timestamp false
              (constant_strategy selection_with_game)
              (constant_strategy selection_with_game)
              (constant_strategy selection_with_game)
              (constant_strategy selection_with_game)
              single_request balance _ _ eq_refl eq_refl) as (Hfields & _).
  unfold predict_with. rewrite Hfields by done. reflexivity.
Defined.

(** A strategy that returns [null]. *)
Lemma predict_degenerate_results_witness :
  status (reply (predict_with (constant_strategy VNull) single_request)) = 500.
Proof.
  destruct (predict_degenerate_results (fun _ => "") sample_timestamp false
              (constant_strategy VNull) (constant_strategy VNull)
              (constant_strategy VNull) (constant_strategy VNull)
              single_request balance _ VNull eq_refl eq_refl) as (Hnull & _).
  unfold predict_with. rewrite Hnull by (by left). reflexivity.
Defined.

(** The record with the numbers 100, 3.5, 0, "x" and 12. *)
Lemma normalize_numbers_shape_witness :
  Draw.numbers (normalize GAMES no_number_s no_number_o "大樂透"
                  draw_out_of_range)
  = App.clean no_number_s no_number_o 1
      (VArr [num 100; VNum (Fin (7 # 2)); num 0; VStr "x"; num 12]).
Proof.
  destruct (normalize_numbers_shape GAMES no_number_s no_number_o "大樂透"
              draw_out_of_range _ eq_refl) as (_ & _ & _ & Hkept).
  apply Hkept. right. eexists. split; [reflexivity|]. by left.
Defined.

(** 大樂透 on a Tuesday. *)
Lemma getNextDrawDate_within_week_witness :
  ∃ target,
    getNextDrawDate (Some [2; 5]) tuesday
      = DrawOn target (weekday_label (getDay target)) ∧
    tuesday < target ≤ tuesday + 7.
Proof.
  destruct (getNextDrawDate_within_week 2 [5] tuesday)
    as (target & Hres & Hrange & _).
  - intros d Hd. apply elem_of_cons in Hd as [->|Hd]; [lia|].
    apply list_elem_of_singleton in Hd as ->. lia.
  - exists target. split; [exact Hres|exact Hrange].
Defined.

(** The Wednesday between that Tuesday and the Friday is no draw day. *)
Lemma getNextDrawDate_skips_no_draw_witness :
  getDay (tuesday + 1) ∉ [2; 5].
Proof.
  apply (getNextDrawDate_skips_no_draw 2 [5] tuesday (tuesday + 3) "五").
  - repeat constructor; lia.
  - intros d Hd. apply elem_of_cons in Hd as [->|Hd]; [lia|].
    apply list_elem_of_singleton in Hd as ->. lia.
  - vm_compute. reflexivity.
  - lia.
Defined.

(** 9 is drawn before 3 and as often: 3 is listed first. *)
Lemma hot_numbers_ties_witness :
  [ (Fin 3, 2%nat); (Fin 9, 2%nat) ] `sublist_of` hot_numbers window_tie.
Proof.
  apply hot_numbers_ties.
  - vm_compute. left.
  - vm_compute. right. left.
  - reflexivity.
  - right. split; [reflexivity|]. vm_compute. reflexivity.
Defined.

(** 7 is in each of twelve draws: ten times in the narrow window. *)
Lemma updateDashboard_counts_grow_witness :
  ∃ c_month c_year,
    (Fin 7, c_month) ∈ tally (stat_month (dashboard_of no_filters
                                            (Some twelve_draws))) ∧
    (Fin 7, c_year) ∈ tally (stat_year (dashboard_of no_filters
                                          (Some twelve_draws))) ∧
    (10 ≤ c_month ≤ c_year)%nat.
Proof.
  apply (updateDashboard_counts_grow (fun p => pretty p) (fun _ => 2024)
           (fun _ => 0) (fun _ => NaN) no_filters (Some twelve_draws)).
  vm_compute. left.
Defined.
